(** * PyDrive2 [auth.py]: a shallow embedding of [GoogleAuth] and its decorators

    The module is glue around an OAuth client library, an API client library
    and credential stores.  Its methods are embedded as computations of a
    small monad that threads the interpreter state (the class attribute
    [SERVICE_CONFIGS_LIST] and one [GoogleAuth] instance), may raise a Python
    exception, and logs every call that leaves the module (storage, key
    files, local web server, console, network) in a trace.  What the outside
    answers is read from a [world] record. *)

From Stdlib Require Import ZArith String List Lia Bool.
From stdpp Require Import base option list gmap strings pretty.

Local Open Scope string_scope.
Local Open Scope Z_scope.
Local Set Warnings "-register-all".

(* ===================================================================== *)
(** ** Python values *)

(** The values settings, client configurations and JSON documents are made
    of.  A [str] is given by its UTF-8 bytes.  [VDatetime ms] is a
    [datetime] given as milliseconds since the epoch. *)
Inductive pyval : Type :=
| VNone
| VBool (b : bool)
| VInt (z : Z)
| VStr (s : string)
| VList (l : list pyval)
| VDict (d : gmap string pyval)
| VDatetime (ms : Z).

(** Truth value of an object, as tested by [if value:] and [x or y]. *)
Definition truthy (v : pyval) : bool :=
  match v with
  | VNone => false
  | VBool b => b
  | VInt z => negb (z =? 0)
  | VStr s => negb (String.eqb s EmptyString)
  | VList l => match l with [] => false | _ => true end
  | VDict d => negb (bool_decide (d = ∅))
  | VDatetime _ => true
  end.

Definition is_None (v : pyval) : bool :=
  match v with VNone => true | _ => false end.


(** [v == "literal"] for a string literal. *)
Definition eq_str (v : pyval) (s : string) : bool :=
  match v with VStr t => String.eqb t s | _ => false end.

(** [x or y]. *)
Definition py_or (x y : pyval) : pyval := if truthy x then x else y.

(** [str(v)], as spliced in by ["%s" % v], for the scalar values; a
    container is shown by its brackets only. *)
Definition py_str (v : pyval) : string :=
  match v with
  | VNone => "None"
  | VBool b => if b then "True" else "False"
  | VInt z => pretty z
  | VStr s => s
  | VList _ => "[...]"
  | VDict _ => "{...}"
  | VDatetime ms => "datetime(" +:+ pretty ms +:+ ")"
  end.

(** [d.get(k)] on a dict. *)
Definition dict_get (d : gmap string pyval) (k : string) : pyval :=
  default VNone (d !! k).

(** [k in d] on a dict. *)
Definition dict_has {V} (d : gmap string V) (k : string) : bool :=
  bool_decide (is_Some (d !! k)).

(* ===================================================================== *)
(** ** Exceptions *)

Inductive exn : Type :=
(* defined by the module *)
| AuthenticationError (msg : string)
| AuthenticationRejected (msg : string)
| RefreshError (msg : string)
| InvalidCredentialsError (msg : string)
(* from .settings *)
| InvalidConfigError (msg : string)
(* builtins *)
| KeyError (key : string)
| IndexError
| TypeError
| AttributeError
| OverflowError
| OSError
(* library exceptions the module catches *)
| InvalidClientSecretsError (msg : string)
| FlowExchangeError (msg : string)
| AccessTokenRefreshError (msg : string)
(* any other failure inside a library call *)
| LibraryError (msg : string).

(** [class AuthError(Exception)] and its three subclasses. *)
Definition is_AuthError (e : exn) : bool :=
  match e with
  | AuthenticationError _ | AuthenticationRejected _ | RefreshError _ => true
  | _ => false
  end.

Definition is_RefreshError (e : exn) : bool :=
  match e with RefreshError _ => true | _ => false end.

Definition is_AuthenticationError (e : exn) : bool :=
  match e with AuthenticationError _ => true | _ => false end.

Definition is_InvalidConfigError (e : exn) : bool :=
  match e with InvalidConfigError _ => true | _ => false end.

Definition is_KeyError (e : exn) : bool :=
  match e with KeyError _ => true | _ => false end.

(** [except OSError]: [InvalidCredentialsError] derives from [IOError],
    which is [OSError]. *)
Definition is_OSError (e : exn) : bool :=
  match e with OSError | InvalidCredentialsError _ => true | _ => false end.

Definition is_InvalidClientSecretsError (e : exn) : bool :=
  match e with InvalidClientSecretsError _ => true | _ => false end.

Definition is_FlowExchangeError (e : exn) : bool :=
  match e with FlowExchangeError _ => true | _ => false end.

Definition is_AccessTokenRefreshError (e : exn) : bool :=
  match e with AccessTokenRefreshError _ => true | _ => false end.

(** [str(error)], as spliced in by ["... %s" % error]. *)
Definition exn_str (e : exn) : string :=
  match e with
  | AuthenticationError m | AuthenticationRejected m | RefreshError m
  | InvalidCredentialsError m | InvalidConfigError m
  | InvalidClientSecretsError m | FlowExchangeError m
  | AccessTokenRefreshError m | LibraryError m => m
  | KeyError k => "'" +:+ k +:+ "'"
  | IndexError | TypeError | AttributeError | OverflowError | OSError =>
      EmptyString
  end.

(* ===================================================================== *)
(** ** Objects of the wrapped libraries *)

(** The three credential stores the module constructs.  [Storage] and
    [DictionaryStorage] are the OAuth library's, [RedisStorage] is the
    package's own [.storage.redis]; none is part of this module, and what
    their [get] and [put] answer is read from the world. *)
Inductive Storage : Type :=
| FileStorage (credentials_file : pyval)
| DictionaryStorage (creds_dict creds_key : pyval)
| RedisStorage (host port key : pyval).

(** The token bundle: access token, optional refresh token, expiry, scopes,
    the flag the library sets when the remote declared the grant expired or
    revoked, the store it is bound to ([set_store]) and the user a service
    account impersonates ([create_delegated]). *)
Record Credentials : Type := mkCredentials {
  access_token : string;
  refresh_token : option string;
  token_expiry : Z;
  scopes : string;
  invalid : bool;
  store : option Storage;
  sub : option pyval
}.

Definition set_store (st : option Storage) (c : Credentials) : Credentials :=
  mkCredentials (access_token c) (refresh_token c) (token_expiry c)
                (scopes c) (invalid c) st (sub c).

Definition create_delegated (user : pyval) (c : Credentials) : Credentials :=
  mkCredentials (access_token c) (refresh_token c) (token_expiry c)
                (scopes c) (invalid c) (store c) (Some user).

(** [self.invalid = True]. *)
Definition flagged_invalid (c : Credentials) : Credentials :=
  mkCredentials (access_token c) (refresh_token c) (token_expiry c)
                (scopes c) true (store c) (sub c).

(** The credential object [c] after the token response [c'] was written
    into it: the access token and the expiry are those of the response, the
    refresh token too if the response has one, the flag is cleared,
    everything else stays. *)
Definition refreshed (c c' : Credentials) : Credentials :=
  mkCredentials (access_token c')
                (match refresh_token c' with
                 | Some r => Some r
                 | None => refresh_token c
                 end)
                (token_expiry c') (scopes c) false (store c) (sub c).

(** [self._updateFromCredential(other)]: every attribute of [other] but
    its store. *)
Definition _updateFromCredential (other c : Credentials) : Credentials :=
  set_store (store c) other.

(** The [OAuth2WebServerFlow] attributes the module reads and writes;
    [flow_revoke_uri] is [None] when the keyword was not passed. *)
Record Flow : Type := mkFlow {
  flow_client_id : pyval;
  flow_client_secret : pyval;
  flow_scope : pyval;
  flow_redirect_uri : pyval;
  flow_auth_uri : pyval;
  flow_token_uri : pyval;
  flow_revoke_uri : option pyval;
  flow_user_agent : pyval;
  flow_params : gmap string string
}.

(** An [httplib2.Http]: its timeout, whether 308 is still treated as a
    redirect, and whether a credential has wrapped it. *)
Record Http : Type := mkHttp {
  http_timeout_of : pyval;
  redirects_308 : bool;
  authorized : bool
}.

(** The handle returned by [build("drive", "v2", http=...)]. *)
Inductive Service : Type := DriveV2 (h : Http).

(** What [step1_get_device_and_user_codes] answers. *)
Record DeviceFlowInfo : Type := mkDeviceFlowInfo {
  verification_url : string;
  user_code : string;
  device_code : string
}.

(* ===================================================================== *)
(** ** The [GoogleAuth] object and the interpreter state *)

(** The attributes of one [GoogleAuth] instance.  The [ApiAttribute]
    descriptors read as [None] until assigned. *)
Record GoogleAuth : Type := mkGoogleAuth {
  http_timeout : pyval;
  settings : gmap string pyval;
  client_config : gmap string pyval;
  flow : option Flow;
  credentials : option Credentials;
  http : option Http;
  service : option Service;
  auth_method : option string;
  _storages : gmap string (option Storage);
  _default_storage : option Storage
}.

Definition with_client_config (cc : gmap string pyval) (g : GoogleAuth) :=
  mkGoogleAuth (http_timeout g) (settings g) cc (flow g) (credentials g)
    (http g) (service g) (auth_method g) (_storages g) (_default_storage g).

Definition with_flow (f : option Flow) (g : GoogleAuth) :=
  mkGoogleAuth (http_timeout g) (settings g) (client_config g) f
    (credentials g) (http g) (service g) (auth_method g) (_storages g)
    (_default_storage g).

Definition with_credentials (c : option Credentials) (g : GoogleAuth) :=
  mkGoogleAuth (http_timeout g) (settings g) (client_config g) (flow g) c
    (http g) (service g) (auth_method g) (_storages g) (_default_storage g).

Definition with_http (h : option Http) (g : GoogleAuth) :=
  mkGoogleAuth (http_timeout g) (settings g) (client_config g) (flow g)
    (credentials g) h (service g) (auth_method g) (_storages g)
    (_default_storage g).

Definition with_service (sv : option Service) (g : GoogleAuth) :=
  mkGoogleAuth (http_timeout g) (settings g) (client_config g) (flow g)
    (credentials g) (http g) sv (auth_method g) (_storages g)
    (_default_storage g).

Definition with_auth_method (m : option string) (g : GoogleAuth) :=
  mkGoogleAuth (http_timeout g) (settings g) (client_config g) (flow g)
    (credentials g) (http g) (service g) m (_storages g) (_default_storage g).

Definition with_default_storage (st : option Storage) (g : GoogleAuth) :=
  mkGoogleAuth (http_timeout g) (settings g) (client_config g) (flow g)
    (credentials g) (http g) (service g) (auth_method g) (_storages g) st.

(** Class attributes of [GoogleAuth]. *)
Definition DEFAULT_SETTINGS : gmap string pyval :=
  <["client_config_backend" := VStr "file"]>
  (<["client_config_file" := VStr "client_secrets.json"]>
  (<["save_credentials" := VBool false]>
  (<["oauth_scope" := VList [VStr "https://www.googleapis.com/auth/drive"]]>
   ∅))).

Definition CLIENT_CONFIGS_LIST : list string :=
  ["client_id"; "client_secret"; "auth_uri"; "token_uri"; "revoke_uri";
   "redirect_uri"].

(** [SERVICE_CONFIGS_LIST] as the class statement creates it.  The list
    object is mutable and shared by all instances, so its current contents
    are part of the interpreter state. *)
Definition SERVICE_CONFIGS_LIST_init : list string := ["client_user_email"].

(** The interpreter state a method runs in: the class-level list and the
    instance bound to [self]. *)
Record state : Type := mkState {
  SERVICE_CONFIGS_LIST : list string;
  self : GoogleAuth
}.

Definition on_self (f : GoogleAuth -> GoogleAuth) (s : state) : state :=
  mkState (SERVICE_CONFIGS_LIST s) (f (self s)).

(* ===================================================================== *)
(** ** Calls that leave the module *)

Inductive event : Type :=
(* credential stores: [get] and [put], called by this module *)
| StorageGet (st : Storage)
| StoragePut (st : Storage) (c : option Credentials)
(* credential stores: [locked_get] and [locked_put], called by the OAuth
   library on the store a credential is bound to *)
| StorageLockedGet (st : Storage)
| StorageLockedPut (st : Storage) (c : option Credentials)
(* service-account key material *)
| KeyfileDict (keyfile_dict : pyval)
| KeyfileRead (filename : pyval)
| P12Read (service_account_email filename : pyval)
(* client secrets file *)
| ClientSecretsRead (filename : pyval)
(* local redirect listener, browser and console *)
| BindPort (addr : pyval) (port : Z) (ok : bool)
| HandleRequest
| BrowserOpen (url : string)
| Print (line : string)
| Input (prompt : string)
(* network *)
| TokenRefresh
| CodeExchange (code : pyval)
| DeviceCodeRequest
| TokenPost (url : pyval) (data : gmap string pyval)
| BuildService.

(** A read or a write of a storage backend, by whichever method. *)
Definition is_storage_event (e : event) : bool :=
  match e with
  | StorageGet _ | StoragePut _ _
  | StorageLockedGet _ | StorageLockedPut _ _ => true
  | _ => false
  end.


Definition is_HandleRequest (e : event) : bool :=
  match e with HandleRequest => true | _ => false end.


(** What the outside answers.  Each field stands for one library or system
    call of the module; a call is also logged as an [event]. *)
Record world : Type := mkWorld {
  (* the clock *)
  now : Z;
  (* whether the listen address resolves; if not, the socket layer fails
     with gaierror, an OSError *)
  resolves : pyval -> bool;
  (* the listener binds to the resolved address and port, or fails with
     OSError *)
  port_free : pyval -> Z -> bool;
  (* the query parameters of the one redirect request served *)
  query_params : gmap string string;
  (* the line typed at [input(...)] *)
  typed : string;
  step1_get_authorize_url : Flow -> string;
  step1_get_device_and_user_codes : Flow -> DeviceFlowInfo;
  (* [requests.post(url, data)]: status code and JSON body *)
  requests_post : pyval -> gmap string pyval -> Z * pyval;
  (* [flow.step2_exchange(code)]: credentials, or the reason of a
     FlowExchangeError *)
  step2_exchange : Flow -> pyval -> string + Credentials;
  (* the token request of [credentials.refresh(http)]: the tokens of the
     response, or the reason of an AccessTokenRefreshError *)
  refresh : Credentials -> string + Credentials;
  (* whether the body of a rejecting response names an error, which makes
     the library flag the credential invalid *)
  refresh_error_in_body : Credentials -> bool;
  (* [OAuth2Credentials.from_json] *)
  from_json : gmap string pyval -> string + Credentials;
  (* [ServiceAccountCredentials] constructors *)
  from_json_keyfile_dict : pyval -> pyval -> string + Credentials;
  from_json_keyfile_name : pyval -> pyval -> string + Credentials;
  from_p12_keyfile : pyval -> pyval -> pyval -> string + Credentials;
  json_loads : pyval -> string + pyval;
  (* [clientsecrets.loadfile]: client type and client info, or the reason
     of an InvalidClientSecretsError *)
  loadfile : pyval -> string + (pyval * gmap string pyval);
  (* what a store holds, as [get] and [locked_get] read it: a credential
     or None; [inl tt] is an OSError *)
  storage_get : Storage -> unit + option Credentials;
  (* whether [put] and [locked_put] succeed; failure is an OSError *)
  storage_put : Storage -> option Credentials -> bool
}.

(* ===================================================================== *)
(** ** The monad of methods *)

Record outcome (A : Type) : Type := mkOutcome {
  trace : list event;
  final : state;
  result : exn + A
}.
Arguments mkOutcome {A} _ _ _.
Arguments trace {A} _.
Arguments final {A} _.
Arguments result {A} _.

Definition M (A : Type) : Type := world -> state -> outcome A.

Definition ret {A} (a : A) : M A := fun _ s => mkOutcome [] s (inr a).

Definition raise {A} (e : exn) : M A := fun _ s => mkOutcome [] s (inl e).

(** [extend tr o]: the outcome [o], reached after the events [tr]. *)
Definition extend {A} (tr : list event) (o : outcome A) : outcome A :=
  match o with mkOutcome tr' s r => mkOutcome (tr ++ tr') s r end.

Definition bind {A B} (m : M A) (f : A -> M B) : M B := fun w s =>
  match m w s with
  | mkOutcome tr s1 (inl e) => mkOutcome tr s1 (inl e)
  | mkOutcome tr s1 (inr a) => extend tr (f a w s1)
  end.

Declare Scope py_scope.
Delimit Scope py_scope with py.
Notation "x <- m ;; k" := (bind m (fun x => k))
  (at level 100, m at next level, right associativity) : py_scope.
Notation "m ;; k" := (bind m (fun _ => k))
  (at level 100, right associativity) : py_scope.
Local Open Scope py_scope.

Definition emit (e : event) : M unit := fun _ s => mkOutcome [e] s (inr tt).

Definition gets {A} (f : GoogleAuth -> A) : M A :=
  fun _ s => mkOutcome [] s (inr (f (self s))).

Definition modify (f : GoogleAuth -> GoogleAuth) : M unit :=
  fun _ s => mkOutcome [] (on_self f s) (inr tt).

Definition get_class_list : M (list string) :=
  fun _ s => mkOutcome [] s (inr (SERVICE_CONFIGS_LIST s)).

Definition set_class_list (l : list string) : M unit :=
  fun _ s => mkOutcome [] (mkState l (self s)) (inr tt).

Definition ask {A} (f : world -> A) : M A :=
  fun w s => mkOutcome [] s (inr (f w)).

(** [try: m except E as e: h e], where [catches] recognises class [E]. *)
Definition try_except {A} (m : M A) (catches : exn -> bool)
    (h : exn -> M A) : M A := fun w s =>
  match m w s with
  | mkOutcome tr s1 (inl e) =>
      if catches e then extend tr (h e w s1) else mkOutcome tr s1 (inl e)
  | mkOutcome tr s1 (inr a) => mkOutcome tr s1 (inr a)
  end.

Definition when (b : bool) (m : M unit) : M unit := if b then m else ret tt.

(** A library call that answers a value or fails with [mk reason]. *)
Definition lift_call {A} (mk : string -> exn) (r : string + A) : M A :=
  match r with inl reason => raise (mk reason) | inr a => ret a end.

Definition print (line : string) : M unit := emit (Print line).

(** [d[k]] on a dict object. *)
Definition dict_item (d : gmap string pyval) (k : string) : M pyval :=
  match d !! k with Some v => ret v | None => raise (KeyError k) end.

(** [v[k]] with a string key on any object. *)
Definition subscript (v : pyval) (k : string) : M pyval :=
  match v with
  | VDict d => dict_item d k
  | _ => raise TypeError
  end.

(** [v.get(k)] on any object. *)
Definition method_get (v : pyval) (k : string) : M pyval :=
  match v with
  | VDict d => ret (dict_get d k)
  | _ => raise AttributeError
  end.

(** The number of bytes of the character whose UTF-8 encoding starts with
    the byte [c]. *)
Definition utf8_width (c : Ascii.ascii) : nat :=
  let n := Ascii.nat_of_ascii c in
  (if n <? 192 then 1 else if n <? 224 then 2 else if n <? 240 then 3
   else 4)%nat.

(** [v[0]]; on a string, its first character. *)
Definition item0 (v : pyval) : M pyval :=
  match v with
  | VList (x :: _) => ret x
  | VList [] => raise IndexError
  | VStr (String c rest) =>
      ret (VStr (String.substring 0 (utf8_width c) (String c rest)))
  | VStr EmptyString => raise IndexError
  | VDict _ => raise (KeyError "0")
  | _ => raise TypeError
  end.

(** A [for] loop whose body does not [break]. *)
Fixpoint for_each {A} (l : list A) (body : A -> M unit) : M unit :=
  match l with
  | [] => ret tt
  | x :: rest => body x ;; for_each rest body
  end.

(** Attribute access or method call on an attribute that may be [None]. *)
Definition attr_of {A} (o : option A) : M A :=
  match o with Some a => ret a | None => raise AttributeError end.

(** [self.client_config[k] = v]. *)
Definition client_config_set (k : string) (v : pyval) : M unit :=
  modify (fun g => with_client_config (<[k := v]> (client_config g)) g).

(* ===================================================================== *)
(** ** Library helpers *)

(** [oauth2client._helpers.scopes_to_string]: a string is passed through,
    anything else is handed to [' '.join], which raises TypeError unless it
    is an iterable of strings.  (Iterating a dict yields its keys.) *)
Fixpoint all_str (l : list pyval) : option (list string) :=
  match l with
  | [] => Some []
  | VStr s :: rest => option_map (cons s) (all_str rest)
  | _ :: _ => None
  end.

Definition join_scopes (scopes : pyval) : option string :=
  match scopes with
  | VStr s => Some s
  | VList l => option_map (String.concat " ") (all_str l)
  | VDict d => Some (String.concat " " (map fst (map_to_list d)))
  | _ => None
  end.

Definition scopes_to_string (scopes : pyval) : M pyval :=
  match join_scopes scopes with
  | Some s => ret (VStr s)
  | None => raise TypeError
  end.

(** [str.strip()]: the characters for which [str.isspace] holds are removed
    at both ends.  They are U+0009 to U+000D, U+001C to U+0020, U+0085,
    U+00A0, U+1680, U+2000 to U+200A, U+2028, U+2029, U+202F, U+205F and
    U+3000; the three predicates recognise their encodings of one, two and
    three bytes. *)
Definition is_space (c : Ascii.ascii) : bool :=
  let n := Ascii.nat_of_ascii c in
  ((9 <=? n) && (n <=? 13) || (28 <=? n) && (n <=? 32))%nat.

Definition is_space2 (c1 c2 : Ascii.ascii) : bool :=
  let a := Ascii.nat_of_ascii c1 in
  let b := Ascii.nat_of_ascii c2 in
  ((a =? 194) && ((b =? 133) || (b =? 160)))%nat.

Definition is_space3 (c1 c2 c3 : Ascii.ascii) : bool :=
  let a := Ascii.nat_of_ascii c1 in
  let b := Ascii.nat_of_ascii c2 in
  let c := Ascii.nat_of_ascii c3 in
  ((a =? 225) && (b =? 154) && (c =? 128)
   || (a =? 226) && (b =? 128)
      && ((128 <=? c) && (c <=? 138) || (c =? 168) || (c =? 169)
          || (c =? 175))
   || (a =? 226) && (b =? 129) && (c =? 159)
   || (a =? 227) && (b =? 128) && (c =? 128))%nat.

Fixpoint lstrip (s : string) : string :=
  match s with
  | String c1 rest1 =>
      if is_space c1 then lstrip rest1
      else
        match rest1 with
        | String c2 rest2 =>
            if is_space2 c1 c2 then lstrip rest2
            else
              match rest2 with
              | String c3 rest3 =>
                  if is_space3 c1 c2 c3 then lstrip rest3 else s
              | EmptyString => s
              end
        | EmptyString => s
        end
  | EmptyString => EmptyString
  end.

(** [rstrip] on the reversed string, whose characters come last byte
    first. *)
Fixpoint rstrip_reversed (s : string) : string :=
  match s with
  | String c1 rest1 =>
      if is_space c1 then rstrip_reversed rest1
      else
        match rest1 with
        | String c2 rest2 =>
            if is_space2 c2 c1 then rstrip_reversed rest2
            else
              match rest2 with
              | String c3 rest3 =>
                  if is_space3 c3 c2 c1 then rstrip_reversed rest3 else s
              | EmptyString => s
              end
        | EmptyString => s
        end
  | EmptyString => EmptyString
  end.

Definition rstrip (s : string) : string :=
  String.rev (rstrip_reversed (String.rev s)).

Definition strip (s : string) : string := rstrip (lstrip s).

Definition OOB_CALLBACK_URN : string := "urn:ietf:wg:oauth:2.0:oob".
Definition TYPE_WEB : string := "web".
Definition TYPE_INSTALLED : string := "installed".

Definition nl : string := String (Ascii.ascii_of_nat 10) EmptyString.
Definition dq : string := String (Ascii.ascii_of_nat 34) EmptyString.

(** Calls into the libraries: each logs its event, then answers as the
    world says. *)
Definition Storage_get (st : Storage) : M (option Credentials) :=
  emit (StorageGet st) ;;
  r <- ask (fun w => storage_get w st) ;;
  match r with inl _ => raise OSError | inr c => ret c end.

Definition Storage_put (st : Storage) (c : option Credentials) : M unit :=
  emit (StoragePut st c) ;;
  ok <- ask (fun w => storage_put w st c) ;;
  if ok : bool then ret tt else raise OSError.

Definition clientsecrets_loadfile (filename : pyval)
    : M (pyval * gmap string pyval) :=
  emit (ClientSecretsRead filename) ;;
  r <- ask (fun w => loadfile w filename) ;;
  lift_call InvalidClientSecretsError r.

(** The same two accesses, made by the OAuth library under the lock of the
    store. *)
Definition Storage_locked_get (st : Storage) : M (option Credentials) :=
  emit (StorageLockedGet st) ;;
  r <- ask (fun w => storage_get w st) ;;
  match r with inl _ => raise OSError | inr c => ret c end.

Definition Storage_locked_put (st : Storage) (c : option Credentials)
    : M unit :=
  emit (StorageLockedPut st c) ;;
  ok <- ask (fun w => storage_put w st c) ;;
  if ok : bool then ret tt else raise OSError.

(** Modelled from the spec: the [access_token_expired] property of the
    credential object belongs to the OAuth client library, which is not
    part of this module; the specification describes it as "the
    credential's expiry has passed", expiry at or before the current time. *)
Definition Credentials_access_token_expired (c : Credentials) : M bool :=
  t <- ask now ;;
  ret (token_expiry c <=? t).

(** [if self.store: self.store.locked_put(self)], on the credential object
    as it now is. *)
Definition put_to_bound_store (c : Credentials) : M unit :=
  match store c with
  | Some st => Storage_locked_put st (Some c)
  | None => ret tt
  end.

(** The library's [_do_refresh_request] on the credential object [c]: one
    token request.  An accepting response is written into the object, which
    is then written to the store it is bound to.  A rejecting response
    raises AccessTokenRefreshError; if its body names an error, the object
    is first flagged invalid and written to its store. *)
Definition _do_refresh_request (c : Credentials) : M unit :=
  emit TokenRefresh ;;
  r <- ask (fun w => refresh w c) ;;
  match r with
  | inr c' =>
      modify (with_credentials (Some (refreshed c c'))) ;;
      put_to_bound_store (refreshed c c')
  | inl reason =>
      named <- ask (fun w => refresh_error_in_body w c) ;;
      when named
        (modify (with_credentials (Some (flagged_invalid c))) ;;
         put_to_bound_store (flagged_invalid c)) ;;
      raise (AccessTokenRefreshError reason)
  end.

(** [self.credentials.refresh(http)], the library's [_refresh].  A
    credential bound to no store asks the remote.  One bound to a store
    reads the store first: if it holds a credential that is not flagged
    invalid, has another access token and has not expired, that credential
    is taken over and the remote is not asked. *)
Definition Credentials_refresh : M unit :=
  oc <- gets credentials ;;
  c <- attr_of oc ;;
  match store c with
  | None => _do_refresh_request c
  | Some st =>
      new_cred <- Storage_locked_get st ;;
      match new_cred with
      | Some n =>
          expired <- Credentials_access_token_expired n ;;
          if negb (invalid n)
             && negb (String.eqb (access_token n) (access_token c))
             && negb expired
          then modify (with_credentials (Some (_updateFromCredential n c)))
          else _do_refresh_request c
      | None => _do_refresh_request c
      end
  end.

Definition Flow_step2_exchange (f : Flow) (code : pyval) : M Credentials :=
  emit (CodeExchange code) ;;
  r <- ask (fun w => step2_exchange w f code) ;;
  lift_call FlowExchangeError r.

(** The port numbers a socket address can hold, and the integers a C [int]
    can. *)
Definition valid_port (port : Z) : bool := (0 <=? port) && (port <=? 65535).

Definition fits_int (port : Z) : bool :=
  (- 2147483648 <=? port) && (port <=? 2147483647).

(** [ClientRedirectServer((addr, port), ClientRedirectHandler)] inside
    [try ... except OSError]: whether the listener could be bound.  The
    socket layer takes the address apart in this order: the host has to be
    a string (TypeError), the port has to fit an [int] (OverflowError), the
    host is resolved (OSError), the port has to be one (OverflowError);
    then it binds (OSError).  Only the OSError is caught. *)
Definition ClientRedirectServer (addr : pyval) (port : Z) : M bool :=
  match addr with
  | VStr _ =>
      if negb (fits_int port) then raise OverflowError
      else
        known <- ask (fun w => resolves w addr) ;;
        if negb known then emit (BindPort addr port false) ;; ret false
        else if negb (valid_port port) then raise OverflowError
        else
          ok <- ask (fun w => port_free w addr port) ;;
          emit (BindPort addr port ok) ;;
          ret ok
  | _ => raise TypeError
  end.

(* ===================================================================== *)
(** ** Validation of the settings *)

(** The classes [type(value) is ...] is compared with. *)
Inductive pytype : Type := Tstr | Tbool | Tlist | Tdict.

Definition type_is (t : pytype) (v : pyval) : bool :=
  match t, v with
  | Tstr, VStr _ | Tbool, VBool _ | Tlist, VList _ | Tdict, VDict _ => true
  | _, _ => false
  end.

Definition type_name (t : pytype) : string :=
  match t with
  | Tstr => "<class 'str'>"
  | Tbool => "<class 'bool'>"
  | Tlist => "<class 'list'>"
  | Tdict => "<class 'dict'>"
  end.

(** Sequencing of steps that answer a value or raise. *)
Definition and_then {A B} (r : exn + A) (k : A -> exn + B) : exn + B :=
  match r with inl e => inl e | inr a => k a end.

Notation "x <-? r ;; k" := (and_then r (fun x => k))
  (at level 100, r at next level, right associativity) : py_scope.

(** Modelled from the spec: [ValidateSettings] belongs to [.settings],
    which is not part of this module's source.  The specification has the
    settings as a "configuration dict with defaults; validated once at
    construction", with [save_credentials] a bool, [oauth_scope] a list of
    scope strings, the two backend names strings and [service_config] a
    nested structure; anything missing or of another kind is an
    InvalidConfigError.  One setting is checked as follows: a value that is
    absent or None is replaced by the default, and is an error when there
    is none; any other value has to be of the type named. *)
Definition _ValidateSettingsElement (key : string) (t : pytype)
    (default : option pyval) (data : gmap string pyval)
    : exn + gmap string pyval :=
  let value := dict_get data key in
  if is_None value then
    match default with
    | Some d => inr (<[key := d]> data)
    | None => inl (InvalidConfigError ("Missing required setting " +:+ key))
    end
  else if type_is t value then inr data
  else
    inl (InvalidConfigError
           ("Setting " +:+ key +:+ " should be type " +:+ type_name t)).

(** Modelled from the spec: a setting that is itself a dict, with the
    check [fields] of what it has to hold. *)
Definition validate_dict (key : string)
    (fields : gmap string pyval -> exn + gmap string pyval)
    (data : gmap string pyval) : exn + gmap string pyval :=
  data <-? _ValidateSettingsElement key Tdict None data ;;
  match data !! key with
  | Some (VDict d) => d <-? fields d ;; inr (<[key := VDict d]> data)
  | _ => inr data
  end.

(** Modelled from the spec: the client identity held in the settings
    ([client_config]) needs an id and a secret; the endpoints have
    defaults. *)
Definition validate_client_config (cc : gmap string pyval)
    : exn + gmap string pyval :=
  cc <-? _ValidateSettingsElement "client_id" Tstr None cc ;;
  cc <-? _ValidateSettingsElement "client_secret" Tstr None cc ;;
  cc <-? _ValidateSettingsElement "auth_uri" Tstr
           (Some (VStr "https://accounts.google.com/o/oauth2/auth")) cc ;;
  cc <-? _ValidateSettingsElement "token_uri" Tstr
           (Some (VStr "https://accounts.google.com/o/oauth2/token")) cc ;;
  cc <-? _ValidateSettingsElement "redirect_uri" Tstr
           (Some (VStr "urn:ietf:wg:oauth:2.0:oob")) cc ;;
  _ValidateSettingsElement "revoke_uri" Tstr (Some VNone) cc.

(** Modelled from the spec: of the service-account fields
    ([service_config]) only the delegated user email is checked; when
    absent it is set to None. *)
Definition validate_service_config (sc : gmap string pyval)
    : exn + gmap string pyval :=
  _ValidateSettingsElement "client_user_email" Tstr (Some VNone) sc.

(** Modelled from the spec: with persistence enabled, the backend has to
    be named, and the file and dictionary backends need their
    parameters. *)
Definition validate_save_credentials_backend (data : gmap string pyval)
    : exn + gmap string pyval :=
  let value := dict_get data "save_credentials_backend" in
  data <-? _ValidateSettingsElement "save_credentials_backend" Tstr None
             data ;;
  if eq_str value "file" then
    _ValidateSettingsElement "save_credentials_file" Tstr None data
  else if eq_str value "dictionary" then
    data <-? validate_dict "save_credentials_dict" inr data ;;
    _ValidateSettingsElement "save_credentials_key" Tstr None data
  else inr data.

(** Modelled from the spec: the scopes are a list of strings, by default
    the one Drive scope. *)
Definition validate_oauth_scope (data : gmap string pyval)
    : exn + gmap string pyval :=
  data <-? _ValidateSettingsElement "oauth_scope" Tlist
             (Some (VList [VStr "https://www.googleapis.com/auth/drive"]))
             data ;;
  match dict_get data "oauth_scope" with
  | VList l =>
      if forallb (type_is Tstr) l then inr data
      else
        inl (InvalidConfigError
               ("Setting oauth_scope should be list of " +:+ type_name Tstr))
  | _ => inr data
  end.

(** Modelled from the spec: [ValidateSettings(data)], which checks the
    dict and writes the defaults into it; the answer is the dict as it then
    is.  The three settings that are always required are checked in turn:
    the client configuration backend (and, for the value given, what that
    backend reads), [save_credentials] (and, when True, the backend to save
    to), and the scopes. *)
Definition ValidateSettings (data : gmap string pyval)
    : exn + gmap string pyval :=
  let value := dict_get data "client_config_backend" in
  data <-? _ValidateSettingsElement "client_config_backend" Tstr
             (Some (VStr "file")) data ;;
  data <-?
    (if eq_str value "file" then
       _ValidateSettingsElement "client_config_file" Tstr
         (Some (VStr "client_secrets.json")) data
     else if eq_str value "settings" then
       validate_dict "client_config" validate_client_config data
     else if eq_str value "service" then
       validate_dict "service_config" validate_service_config data
     else inr data) ;;
  let value := dict_get data "save_credentials" in
  data <-? _ValidateSettingsElement "save_credentials" Tbool
             (Some (VBool false)) data ;;
  data <-?
    (match value with
     | VBool true => validate_save_credentials_backend data
     | _ => inr data
     end) ;;
  validate_oauth_scope data.

(* ===================================================================== *)
(** ** Methods of [GoogleAuth] *)

(** Values that can be used as a dict key. *)
Definition hashable (v : pyval) : bool :=
  match v with VList _ | VDict _ => false | _ => true end.

(** [_InitializeStoragesFromSettings], as a function of the settings. *)
Definition _InitializeStoragesFromSettings (st : gmap string pyval)
    : exn + (gmap string (option Storage) * option Storage) :=
  let result0 : gmap string (option Storage) :=
    <["file" := None]> (<["dictionary" := None]> ∅) in
  let backend := dict_get st "save_credentials_backend" in
  let save_credentials := dict_get st "save_credentials" in
  if eq_str backend "file" then
    let credentials_file := dict_get st "save_credentials_file" in
    if is_None credentials_file then
      inl (InvalidConfigError "Please specify credentials file to read")
    else
      let stg := FileStorage credentials_file in
      inr (<["file" := Some stg]> result0, Some stg)
  else if eq_str backend "dictionary" then
    let creds_dict := dict_get st "save_credentials_dict" in
    if is_None creds_dict then
      inl (InvalidConfigError "Please specify credentials dict")
    else
      let creds_key := dict_get st "save_credentials_key" in
      if is_None creds_key then
        inl (InvalidConfigError "Please specify credentials key")
      else
        let stg := DictionaryStorage creds_dict creds_key in
        inr (<["dictionary" := Some stg]> result0, Some stg)
  else if eq_str backend "redis" then
    let host := if negb (is_None (dict_get st "redis_host"))
                then dict_get st "redis_host" else VStr "127.0.0.1" in
    let port := if negb (is_None (dict_get st "redis_port"))
                then dict_get st "redis_port" else VInt 6379 in
    let stg := RedisStorage host port (dict_get st "redis_key") in
    inr (<["redis" := Some stg]> result0, Some stg)
  else if truthy save_credentials then
    inl (InvalidConfigError
           ("Unknown save_credentials_backend: " +:+ py_str backend))
  else if hashable backend then
    (* [result.get(backend)]: no entry for this backend *)
    inr (result0, None)
  else inl TypeError.

(** [GoogleAuth(http_timeout=timeout, settings=st)], where [st] is the
    dict passed, or else the one loaded from the settings file: the
    instance [__init__] leaves behind, or the exception it raises.  The
    settings the instance holds are the validated ones, defaults written
    in. *)
Definition new_GoogleAuth (timeout : pyval) (st : gmap string pyval)
    : exn + GoogleAuth :=
  let st := if bool_decide (st = ∅) then DEFAULT_SETTINGS else st in
  st <-? ValidateSettings st ;;
  r <-? _InitializeStoragesFromSettings st ;;
  inr (mkGoogleAuth timeout st ∅ None None None None None (fst r) (snd r)).

(** The [access_token_expired] property. *)
Definition access_token_expired : M bool :=
  oc <- gets credentials ;;
  match oc with
  | None => ret true
  | Some c => Credentials_access_token_expired c
  end.

(** [_build_http]: a fresh [httplib2.Http] with 308 taken out of its
    redirect codes. *)
Definition _build_http : M Http :=
  t <- gets http_timeout ;;
  ret (mkHttp t false false).

Definition Authorize : M unit :=
  expired <- access_token_expired ;;
  if expired : bool then
    raise (AuthenticationError "No valid credentials provided to authorize")
  else
    h <- gets http ;;
    (match h with
     | None => h' <- _build_http ;; modify (with_http (Some h'))
     | Some _ => ret tt
     end) ;;
    oc <- gets credentials ;;
    _ <- attr_of oc ;;
    oh <- gets http ;;
    h <- attr_of oh ;;
    let h' := mkHttp (http_timeout_of h) (redirects_308 h) true in
    modify (with_http (Some h')) ;;
    emit BuildService ;;
    modify (with_service (Some (DriveV2 h'))).

Definition Refresh : M unit :=
  oc <- gets credentials ;;
  match oc with
  | None => raise (RefreshError "No credential to refresh.")
  | Some c =>
      am <- gets auth_method ;;
      if bool_decide (refresh_token c = None)
         && negb (bool_decide (am = Some "service"))
      then
        raise (RefreshError
          "No refresh_token found.Please set access_type of OAuth to offline.")
      else
        h <- gets http ;;
        (match h with
         | None => h' <- _build_http ;; modify (with_http (Some h'))
         | Some _ => ret tt
         end) ;;
        try_except Credentials_refresh is_AccessTokenRefreshError
          (fun error =>
             raise (RefreshError
                      ("Access token refresh failed: " +:+ exn_str error)))
  end.

Definition LoadClientConfigFile (client_config_file : pyval) : M unit :=
  client_config_file <-
    (if is_None client_config_file then
       st <- gets settings ;; dict_item st "client_config_file"
     else ret client_config_file) ;;
  loaded <-
    try_except (clientsecrets_loadfile client_config_file)
      is_InvalidClientSecretsError
      (fun error =>
         raise (InvalidConfigError
                  ("Invalid client secrets file " +:+ exn_str error))) ;;
  let client_type := fst loaded in
  let client_info := snd loaded in
  if negb (eq_str client_type TYPE_WEB || eq_str client_type TYPE_INSTALLED)
  then raise (InvalidConfigError "Unknown client_type of client config file")
  else
    (* General settings. *)
    try_except
      (for_each ["client_id"; "client_secret"; "auth_uri"; "token_uri"]
         (fun config =>
            v <- dict_item client_info config ;; client_config_set config v) ;;
       client_config_set "revoke_uri" (dict_get client_info "revoke_uri") ;;
       uris <- dict_item client_info "redirect_uris" ;;
       uri <- item0 uris ;;
       client_config_set "redirect_uri" uri)
      is_KeyError
      (fun _ =>
         raise (InvalidConfigError "Insufficient client config in file")) ;;
    (* Service auth related fields. *)
    try_except
      (for_each ["client_email"]
         (fun config =>
            v <- dict_item client_info config ;; client_config_set config v))
      is_KeyError
      (fun _ => ret tt).

Definition service_configs : list string :=
  ["client_json_file_path"; "client_json_dict"; "client_json";
   "client_pkcs12_file_path"].

Definition service_config_required : string :=
  "One of ['client_json_file_path', 'client_json_dict', " +:+
  "'client_json', 'client_pkcs12_file_path'] is required for " +:+
  "service authentication".

(** The [for config in configs: ... break / else: raise] loop of
    [LoadServiceConfigSettings]; answers the [config] it stopped at. *)
Fixpoint first_service_config (configs : list string) : M string :=
  match configs with
  | [] => raise (InvalidConfigError service_config_required)
  | config :: rest =>
      st <- gets settings ;;
      sc <- dict_item st "service_config" ;;
      value <- method_get sc config ;;
      if truthy value then client_config_set config value ;; ret config
      else first_service_config rest
  end.

(** The body of its second loop, over [self.SERVICE_CONFIGS_LIST]. *)
Definition load_required_service_config (config : string) : M unit :=
  try_except
    (st <- gets settings ;;
     sc <- dict_item st "service_config" ;;
     v <- subscript sc config ;;
     client_config_set config v)
    is_KeyError
    (fun _ =>
       raise (InvalidConfigError
                ("Insufficient service config in settings" +:+ nl +:+ nl
                 +:+ "Missing: " +:+ config +:+ " key."))).

Definition LoadServiceConfigSettings : M unit :=
  config <- first_service_config service_configs ;;
  (if String.eqb config "client_pkcs12_file_path" then
     l <- get_class_list ;; set_class_list (l ++ ["client_service_email"])
   else ret tt) ;;
  l <- get_class_list ;;
  for_each l load_required_service_config.

Definition LoadClientConfigSettings : M unit :=
  for_each CLIENT_CONFIGS_LIST (fun config =>
    try_except
      (st <- gets settings ;;
       cc <- dict_item st "client_config" ;;
       v <- subscript cc config ;;
       client_config_set config v)
      is_KeyError
      (fun _ =>
         raise (InvalidConfigError "Insufficient client config in settings"))).

Definition LoadClientConfig (backend : pyval) : M unit :=
  backend <-
    (if is_None backend then
       st <- gets settings ;;
       let b := dict_get st "client_config_backend" in
       if is_None b then
         raise (InvalidConfigError "Please specify client config backend")
       else ret b
     else ret backend) ;;
  if eq_str backend "file" then LoadClientConfigFile VNone
  else if eq_str backend "settings" then LoadClientConfigSettings
  else if eq_str backend "service" then LoadServiceConfigSettings
  else raise (InvalidConfigError "Unknown client_config_backend").

Definition GetFlow : M unit :=
  cc <- gets client_config ;;
  when (negb (forallb (dict_has cc) CLIENT_CONFIGS_LIST))
       (LoadClientConfig VNone) ;;
  cc <- gets client_config ;;
  redirect_uri <- dict_item cc "redirect_uri" ;;
  auth_uri <- dict_item cc "auth_uri" ;;
  token_uri <- dict_item cc "token_uri" ;;
  revoke_uri <- dict_item cc "revoke_uri" ;;
  client_id <- dict_item cc "client_id" ;;
  client_secret <- dict_item cc "client_secret" ;;
  st <- gets settings ;;
  oauth_scope <- dict_item st "oauth_scope" ;;
  scope <- scopes_to_string oauth_scope ;;
  let f := mkFlow client_id client_secret scope redirect_uri auth_uri
                  token_uri
                  (if is_None revoke_uri then None else Some revoke_uri)
                  VNone
                  (<["access_type" := "online"]> ∅) in
  modify (with_flow (Some f)) ;;
  when (truthy (dict_get st "get_refresh_token"))
    (modify (with_flow (Some
       (mkFlow client_id client_secret scope redirect_uri auth_uri token_uri
               (flow_revoke_uri f) VNone
               (<["approval_prompt" := "force"]>
                  (<["access_type" := "offline"]> (flow_params f))))))).

Definition GetDeviceCode : M DeviceFlowInfo :=
  f <- gets flow ;;
  when (bool_decide (f = None)) GetFlow ;;
  f <- gets flow ;;
  f <- attr_of f ;;
  emit DeviceCodeRequest ;;
  ask (fun w => step1_get_device_and_user_codes w f).

Definition GetAuthUrl : M string :=
  f <- gets flow ;;
  when (bool_decide (f = None)) GetFlow ;;
  f <- gets flow ;;
  f <- attr_of f ;;
  ask (fun w => step1_get_authorize_url w f).

Definition Authenticate (code : pyval) : M unit :=
  f <- gets flow ;;
  when (bool_decide (f = None)) GetFlow ;;
  try_except
    (f <- gets flow ;;
     f <- attr_of f ;;
     c <- Flow_step2_exchange f code ;;
     modify (with_credentials (Some c)))
    is_FlowExchangeError
    (fun e =>
       raise (AuthenticationError
                ("OAuth2 code exchange failed: " +:+ exn_str e))) ;;
  print "Authentication successful.".

Definition Auth (code : pyval) : M unit :=
  Authenticate code ;;
  Authorize.

(** [self._storages[k]]. *)
Definition storages_item (k : string) : M (option Storage) :=
  sts <- gets _storages ;;
  match sts !! k with Some st => ret st | None => raise (KeyError k) end.

(** [if self.credentials: self.credentials.set_store(self._default_storage)] *)
Definition bind_loaded_credentials : M unit :=
  oc <- gets credentials ;;
  match oc with
  | Some c =>
      ds <- gets _default_storage ;;
      modify (with_credentials (Some (set_store ds c)))
  | None => ret tt
  end.

Definition LoadCredentialsFile (credentials_file : pyval) : M unit :=
  (if is_None credentials_file then
     st <- storages_item "file" ;;
     modify (with_default_storage st) ;;
     when (bool_decide (st = None))
       (raise (InvalidConfigError
          ("Backend `file` is not configured, specify " +:+
           "credentials file to read in the settings " +:+
           "file or pass an explicit value")))
   else
     modify (with_default_storage (Some (FileStorage credentials_file)))) ;;
  try_except
    (ds <- gets _default_storage ;;
     st <- attr_of ds ;;
     c <- Storage_get st ;;
     modify (with_credentials c))
    is_OSError
    (fun _ =>
       raise (InvalidCredentialsError
                "Credentials file cannot be symbolic link")) ;;
  bind_loaded_credentials.

Definition _LoadCredentialsDictionary : M unit :=
  st <- storages_item "dictionary" ;;
  modify (with_default_storage st) ;;
  when (bool_decide (st = None))
    (raise (InvalidConfigError
       ("Backend `dictionary` is not configured, specify " +:+
        "credentials dict and key to read in the settings file"))) ;;
  ds <- gets _default_storage ;;
  st <- attr_of ds ;;
  c <- Storage_get st ;;
  modify (with_credentials c) ;;
  bind_loaded_credentials.

Definition LoadCredentialsRedis : M unit :=
  st <- storages_item "redis" ;;
  modify (with_default_storage st) ;;
  when (bool_decide (st = None))
    (raise (InvalidConfigError
       ("Backend `redis` is not configured, specify " +:+
        "credentials dict and key to read in the settings file"))) ;;
  ds <- gets _default_storage ;;
  st <- attr_of ds ;;
  c <- Storage_get st ;;
  modify (with_credentials c) ;;
  bind_loaded_credentials.

Definition LoadCredentials (backend : pyval) : M unit :=
  backend <-
    (if is_None backend then
       st <- gets settings ;;
       let b := dict_get st "save_credentials_backend" in
       if is_None b then
         raise (InvalidConfigError "Please specify credential backend")
       else ret b
     else ret backend) ;;
  if eq_str backend "file" then LoadCredentialsFile VNone
  else if eq_str backend "dictionary" then _LoadCredentialsDictionary
  else if eq_str backend "redis" then LoadCredentialsRedis
  else raise (InvalidConfigError "Unknown save_credentials_backend").

Definition SaveCredentialsRedis : M unit :=
  storage <- storages_item "redis" ;;
  c <- gets credentials ;;
  st <- attr_of storage ;;
  Storage_put st c.

Definition SaveCredentialsFile (credentials_file : pyval) : M unit :=
  oc <- gets credentials ;;
  if bool_decide (oc = None) then
    raise (InvalidCredentialsError "No credentials to save")
  else
    storage <-
      (if is_None credentials_file then
         storage <- storages_item "file" ;;
         match storage with
         | None =>
             raise (InvalidConfigError
               ("Backend `file` is not configured, specify " +:+
                "credentials file to read in the settings " +:+
                "file or pass an explicit value"))
         | Some st => ret st
         end
       else ret (FileStorage credentials_file)) ;;
    try_except
      (c <- gets credentials ;; Storage_put storage c)
      is_OSError
      (fun _ =>
         raise (InvalidCredentialsError
                  "Credentials file cannot be symbolic link")).

Definition _SaveCredentialsDictionary : M unit :=
  oc <- gets credentials ;;
  if bool_decide (oc = None) then
    raise (InvalidCredentialsError "No credentials to save")
  else
    storage <- storages_item "dictionary" ;;
    match storage with
    | None =>
        raise (InvalidConfigError
          ("Backend `dictionary` is not configured, specify " +:+
           "credentials dict and key to write in the settings file"))
    | Some st => c <- gets credentials ;; Storage_put st c
    end.

Definition SaveCredentials (backend : pyval) : M unit :=
  backend <-
    (if is_None backend then
       st <- gets settings ;;
       let b := dict_get st "save_credentials_backend" in
       if is_None b then
         raise (InvalidConfigError "Please specify credential backend")
       else ret b
     else ret backend) ;;
  if eq_str backend "file" then SaveCredentialsFile VNone
  else if eq_str backend "dictionary" then _SaveCredentialsDictionary
  else if eq_str backend "redis" then SaveCredentialsRedis
  else raise (InvalidConfigError "Unknown save_credentials_backend").

(* ===================================================================== *)
(** ** The authorization variants (the decorated function bodies) *)

(** [self.flow.<attr> = v]. *)
Definition flow_update (f : Flow -> Flow) : M unit :=
  o <- gets flow ;;
  fl <- attr_of o ;;
  modify (with_flow (Some (f fl))).

Definition flow_set_redirect_uri (v : pyval) (f : Flow) : Flow :=
  mkFlow (flow_client_id f) (flow_client_secret f) (flow_scope f) v
    (flow_auth_uri f) (flow_token_uri f) (flow_revoke_uri f)
    (flow_user_agent f) (flow_params f).

Definition flow_set_client_id (v : pyval) (f : Flow) : Flow :=
  mkFlow v (flow_client_secret f) (flow_scope f) (flow_redirect_uri f)
    (flow_auth_uri f) (flow_token_uri f) (flow_revoke_uri f)
    (flow_user_agent f) (flow_params f).

Definition flow_set_scope (v : pyval) (f : Flow) : Flow :=
  mkFlow (flow_client_id f) (flow_client_secret f) v (flow_redirect_uri f)
    (flow_auth_uri f) (flow_token_uri f) (flow_revoke_uri f)
    (flow_user_agent f) (flow_params f).

(** The [for port in port_numbers] loop: [(success, port_number)]. *)
Fixpoint try_ports (addr : pyval) (port_numbers : list Z) (port_number : Z)
    : M (bool * Z) :=
  match port_numbers with
  | [] => ret (false, port_number)
  | port :: rest =>
      ok <- ClientRedirectServer addr port ;;
      if ok : bool then ret (true, port) else try_ports addr rest port
  end.

Definition LocalWebserverAuth_body (host_name : string)
    (port_numbers : option (list Z)) (launch_browser : bool)
    (bind_addr : pyval) : M pyval :=
  let port_numbers := default [8080; 8090] port_numbers in
  found <- try_ports (py_or bind_addr (VStr host_name)) port_numbers 0 ;;
  let success := fst found in
  let port_number := snd found in
  oauth_callback <-
    (if success then
       ret ("http://" +:+ host_name +:+ ":" +:+ pretty port_number +:+ "/")
     else
       print "Failed to start a local web server. Please check your firewall" ;;
       print "settings and locally running programs that may be blocking or" ;;
       print "using configured ports. Default ports are 8080 and 8090." ;;
       raise (AuthenticationError EmptyString)) ;;
  flow_update (flow_set_redirect_uri (VStr oauth_callback)) ;;
  authorize_url <- GetAuthUrl ;;
  (if launch_browser then
     emit (BrowserOpen authorize_url) ;;
     print "Your browser has been opened to visit:"
   else print "Open your browser to visit:") ;;
  print EmptyString ;;
  print ("    " +:+ authorize_url) ;;
  print EmptyString ;;
  emit HandleRequest ;;
  q <- ask query_params ;;
  if dict_has q "error" then
    print "Authentication request was rejected" ;;
    raise (AuthenticationRejected "User rejected authentication")
  else
    match q !! "code" with
    | Some code => ret (VStr code)
    | None =>
        print ("Failed to find " +:+ dq +:+ "code" +:+ dq +:+
               " in the query parameters of the redirect.") ;;
        print "Try command-line authentication" ;;
        raise (AuthenticationError "No code found in redirect")
    end.

Definition CommandLineAuth_body : M pyval :=
  flow_update (flow_set_redirect_uri (VStr OOB_CALLBACK_URN)) ;;
  authorize_url <- GetAuthUrl ;;
  print "Go to the following link in your browser:" ;;
  print EmptyString ;;
  print ("    " +:+ authorize_url) ;;
  print EmptyString ;;
  emit (Input "Enter verification code: ") ;;
  line <- ask typed ;;
  ret (VStr (strip line)).

(** [datetime.datetime.fromtimestamp(x / 1e3)] for an integer [x]. *)
Definition fromtimestamp_div_1e3 (x : pyval) : M pyval :=
  match x with
  | VInt z => ret (VDatetime z)
  | VBool b => ret (VDatetime (if b then 1 else 0))
  | _ => raise TypeError
  end.

Definition DeviceAuth_body : M pyval :=
  cc <- gets client_config ;;
  flow_update (flow_set_client_id (dict_get cc "client_id")) ;;
  st <- gets settings ;;
  scope <- scopes_to_string (dict_get st "oauth_scope") ;;
  flow_update (flow_set_scope scope) ;;
  o <- gets flow ;;
  f <- attr_of o ;;
  if is_None (flow_client_id f) then
    raise (InvalidConfigError "client_id is required for Device Authentication")
  else if is_None (flow_scope f) then
    raise (InvalidConfigError
             "oauth_scope is required for Device Authentication")
  else
    user_and_device_code <- GetDeviceCode ;;
    print "Go to the following link in your browser:" ;;
    print (verification_url user_and_device_code) ;;
    print ("Enter this code: " +:+ user_code user_and_device_code) ;;
    emit (Input "Press Enter to continue...") ;;
    o <- gets flow ;;
    f <- attr_of o ;;
    let data : gmap string pyval :=
      <["client_id" := flow_client_id f]>
      (<["client_secret" := flow_client_secret f]>
      (<["device_code" := VStr (device_code user_and_device_code)]>
      (<["grant_type" :=
           VStr "urn:ietf:params:oauth:grant-type:device_code"]> ∅))) in
    emit (TokenPost (flow_token_uri f) data) ;;
    resp <- ask (fun w => requests_post w (flow_token_uri f) data) ;;
    if negb (fst resp =? 200) then
      raise (AuthenticationError "Failed to get access token")
    else
      let json_resp := snd resp in
      access <- subscript json_resp "access_token" ;;
      refresh <- subscript json_resp "refresh_token" ;;
      expires_in <- subscript json_resp "expires_in" ;;
      expiry <- fromtimestamp_div_1e3 expires_in ;;
      let json_data : gmap string pyval :=
        <["client_id" := flow_client_id f]>
        (<["client_secret" := flow_client_secret f]>
        (<["user_agent" := flow_user_agent f]>
        (<["scopes" := flow_scope f]>
        (<["access_token" := access]>
        (<["refresh_token" := refresh]>
        (<["token_expiry" := expiry]>
        (<["token_uri" := flow_token_uri f]> ∅))))))) in
      r <- ask (fun w => from_json w json_data) ;;
      c <- lift_call LibraryError r ;;
      modify (with_credentials (Some c)) ;;
      ret VNone.

Definition ServiceAuth_body : M pyval :=
  required <- get_class_list ;;
  cc <- gets client_config ;;
  when (existsb (fun k => negb (dict_has cc k)) required)
       LoadServiceConfigSettings ;;
  st <- gets settings ;;
  oauth_scope <- dict_item st "oauth_scope" ;;
  scopes <- scopes_to_string oauth_scope ;;
  cc <- gets client_config ;;
  let keyfile_name := dict_get cc "client_json_file_path" in
  let keyfile_dict := dict_get cc "client_json_dict" in
  let keyfile_json := dict_get cc "client_json" in
  keyfile_dict <-
    (if negb (truthy keyfile_dict) && truthy keyfile_json then
       (* Compensating for missing
          ServiceAccountCredentials.from_json_keyfile *)
       r <- ask (fun w => json_loads w keyfile_json) ;;
       lift_call LibraryError r
     else ret keyfile_dict) ;;
  (if truthy keyfile_dict then
     emit (KeyfileDict keyfile_dict) ;;
     r <- ask (fun w => from_json_keyfile_dict w keyfile_dict scopes) ;;
     c <- lift_call LibraryError r ;;
     modify (with_credentials (Some c))
   else if truthy keyfile_name then
     emit (KeyfileRead keyfile_name) ;;
     r <- ask (fun w => from_json_keyfile_name w keyfile_name scopes) ;;
     c <- lift_call LibraryError r ;;
     modify (with_credentials (Some c))
   else
     service_email <- dict_item cc "client_service_email" ;;
     file_path <- dict_item cc "client_pkcs12_file_path" ;;
     emit (P12Read service_email file_path) ;;
     r <- ask (fun w => from_p12_keyfile w service_email file_path scopes) ;;
     c <- lift_call LibraryError r ;;
     modify (with_credentials (Some c))) ;;
  let user_email := dict_get cc "client_user_email" in
  when (truthy user_email)
    (oc <- gets credentials ;;
     c <- attr_of oc ;;
     modify (with_credentials (Some (create_delegated user_email c)))) ;;
  ret VNone.

(* ===================================================================== *)
(** ** The decorators *)

(** [self.credentials.set_store(self._default_storage)] *)
Definition bind_default_store : M unit :=
  oc <- gets credentials ;;
  c <- attr_of oc ;;
  ds <- gets _default_storage ;;
  modify (with_credentials (Some (set_store ds c))).

Definition CheckServiceAuth (decoratee : M pyval) : M unit :=
  modify (with_auth_method (Some "service")) ;;
  st <- gets settings ;;
  let save_credentials := dict_get st "save_credentials" in
  oc <- gets credentials ;;
  when (bool_decide (oc = None) && truthy save_credentials)
       (LoadCredentials VNone) ;;
  oc <- gets credentials ;;
  dirty <-
    (if bool_decide (oc = None) then
       decoratee ;; Authorize ;; ret true
     else
       expired <- access_token_expired ;;
       if expired : bool then Refresh ;; ret true else ret false) ;;
  bind_default_store ;;
  when (dirty && truthy save_credentials) (SaveCredentials VNone).

Definition CheckAuth (decoratee : M pyval) : M unit :=
  st <- gets settings ;;
  let save_credentials := dict_get st "save_credentials" in
  oc <- gets credentials ;;
  when (bool_decide (oc = None) && truthy save_credentials)
       (LoadCredentials VNone) ;;
  f <- gets flow ;;
  when (bool_decide (f = None)) GetFlow ;;
  oc <- gets credentials ;;
  r <-
    (match oc with
     | None => code <- decoratee ;; ret (true, code)
     | Some c =>
         expired <- access_token_expired ;;
         if expired : bool then
           code <-
             (if negb (bool_decide (refresh_token c = None)) then
                Refresh ;; ret VNone
              else decoratee) ;;
           ret (true, code)
         else ret (false, VNone)
     end) ;;
  let dirty := fst r in
  let code := snd r in
  when (negb (is_None code)) (Auth code) ;;
  bind_default_store ;;
  when (dirty && truthy save_credentials) (SaveCredentials VNone).

(** The public methods. *)
Definition LocalWebserverAuth (host_name : string)
    (port_numbers : option (list Z)) (launch_browser : bool)
    (bind_addr : pyval) : M unit :=
  CheckAuth (LocalWebserverAuth_body host_name port_numbers launch_browser
                                     bind_addr).

Definition CommandLineAuth : M unit := CheckAuth CommandLineAuth_body.

Definition DeviceAuth : M unit := CheckAuth DeviceAuth_body.

Definition ServiceAuth : M unit := CheckServiceAuth ServiceAuth_body.


(* ===================================================================== *)
(** ** Properties of runs *)

(** The value the [access_token_expired] property has in state [s] at the
    time the world shows. *)
Definition expired_at (w : world) (s : state) : bool :=
  match credentials (self s) with
  | None => true
  | Some c => token_expiry c <=? now w
  end.

(** [respects R P m]: whatever the world answers, [m] relates its initial
    and final state by [R] and logs only events satisfying [P]. *)
Definition respects (R : state -> state -> Prop) (P : event -> Prop)
    {A} (m : M A) : Prop :=
  forall w s, R s (final (m w s)) /\ Forall P (trace (m w s)).

Definition same_settings (s s' : state) : Prop :=
  settings (self s') = settings (self s).

Definition not_storage (e : event) : Prop := is_storage_event e = false.

(** [quiet m]: [m] never assigns [self.settings] and never reads or writes
    a credential store. *)
Definition quiet {A} (m : M A) : Prop := respects same_settings not_storage m.

(** What loading the client configuration and building the flow leave
    alone: the credential, the http object, the service, the default
    storage. *)
Definition keeps_session (s s' : state) : Prop :=
  credentials (self s') = credentials (self s) /\
  http (self s') = http (self s) /\
  service (self s') = service (self s) /\
  _default_storage (self s') = _default_storage (self s).

(** The only call out of the module they make. *)
Definition reads_client_secrets (e : event) : Prop :=
  exists file, e = ClientSecretsRead file.

(** The stored credential the library's refresh of [c] takes over instead
    of asking the remote, if there is one: it is not flagged invalid, its
    access token is another one, and it has not expired. *)
Definition usable_stored (w : world) (c : Credentials)
    (stored : option Credentials) : option Credentials :=
  match stored with
  | Some n =>
      if negb (invalid n)
         && negb (String.eqb (access_token n) (access_token c))
         && negb (token_expiry n <=? now w)
      then Some n else None
  | None => None
  end.

(** [refresh_access oc e]: the event [e] is no [get] and no [put], and if
    it is an access the library makes to a store, that store is the one the
    credential [oc] is bound to. *)
Definition refresh_access (oc : option Credentials) (e : event) : Prop :=
  match e with
  | StorageGet _ | StoragePut _ _ => False
  | StorageLockedGet st | StorageLockedPut st _ =>
      exists c, oc = Some c /\ store c = Some st
  | _ => True
  end.

(** No credential is held that is bound to a store. *)
Definition unbound (s : state) : Prop :=
  forall c, credentials (self s) = Some c -> store c = None.


(** Two instances of the class: [m1] runs on instance [a], then [m2] on
    instance [b].  They share the class attribute, nothing else. *)
Definition then_on_other {A B} (m1 : M A) (m2 : M B) (w : world)
    (class_list : list string) (a b : GoogleAuth) : outcome B :=
  let o1 := m1 w (mkState class_list a) in
  m2 w (mkState (SERVICE_CONFIGS_LIST (final o1)) b).

(** The settings select the PKCS12 variant: [service_config] holds no
    truthy key file path, key dict or key JSON, and a truthy PKCS12 path. *)
Definition selects_pkcs12 (st : gmap string pyval) : Prop :=
  exists sc,
    st !! "service_config" = Some (VDict sc) /\
    truthy (dict_get sc "client_json_file_path") = false /\
    truthy (dict_get sc "client_json_dict") = false /\
    truthy (dict_get sc "client_json") = false /\
    truthy (dict_get sc "client_pkcs12_file_path") = true.

(* ===================================================================== *)
(** ** Concrete scenarios *)

Definition drive_scope : string := "https://www.googleapis.com/auth/drive".

Definition cred (rt : option string) (expiry : Z) : Credentials :=
  mkCredentials "ya29.token" rt expiry drive_scope false None None.

Definition client_info_ok : gmap string pyval :=
  <["client_id" := VStr "id.apps.example"]>
  (<["client_secret" := VStr "secret"]>
  (<["auth_uri" := VStr "https://accounts.example/o/oauth2/auth"]>
  (<["token_uri" := VStr "https://oauth2.example/token"]>
  (<["redirect_uris" := VList [VStr "http://localhost"]]> ∅)))).

(** A world in which every library call succeeds, up to the given clock,
    free ports, redirect query, refresh answer and client secrets file.
    Every address resolves, a rejected refresh names its error, and the
    stores are empty. *)
Definition sample_world (t : Z) (ports : pyval -> Z -> bool)
    (q : gmap string string) (rf : Credentials -> string + Credentials)
    (lf : pyval -> string + (pyval * gmap string pyval)) : world :=
  mkWorld t (fun _ => true) ports q " 4/0AbCd "
    (fun _ => "https://accounts.example/o/oauth2/auth?x")
    (fun _ => mkDeviceFlowInfo "https://example/device" "ABCD-EFGH" "dev-1")
    (fun _ _ => (200, VDict ∅))
    (fun _ _ => inr (cred (Some "1//rt") 5000))
    rf
    (fun _ => true)
    (fun _ => inr (cred (Some "1//rt") 5000))
    (fun _ _ => inr (cred None 5000))
    (fun _ _ => inr (cred None 5000))
    (fun _ _ _ => inr (cred None 5000))
    (fun _ => inl "not JSON")
    lf
    (fun _ => inr None)
    (fun _ _ => true).

Definition world0 : world :=
  sample_world 1000 (fun _ _ => true) (<["code" := "abc123"]> ∅)
    (fun c => inr (cred (refresh_token c) 9000))
    (fun _ => inr (VStr "installed", client_info_ok)).

(** The world [w] at another time. *)
Definition at_time (t : Z) (w : world) : world :=
  mkWorld t (resolves w) (port_free w) (query_params w) (typed w)
    (step1_get_authorize_url w) (step1_get_device_and_user_codes w)
    (requests_post w) (step2_exchange w) (refresh w)
    (refresh_error_in_body w) (from_json w)
    (from_json_keyfile_dict w) (from_json_keyfile_name w)
    (from_p12_keyfile w) (json_loads w) (loadfile w) (storage_get w)
    (storage_put w).

(** The world [w] with other contents of the credential stores. *)
Definition with_store (w : world)
    (get : Storage -> unit + option Credentials)
    (put : Storage -> option Credentials -> bool) : world :=
  mkWorld (now w) (resolves w) (port_free w) (query_params w) (typed w)
    (step1_get_authorize_url w) (step1_get_device_and_user_codes w)
    (requests_post w) (step2_exchange w) (refresh w)
    (refresh_error_in_body w) (from_json w)
    (from_json_keyfile_dict w) (from_json_keyfile_name w)
    (from_p12_keyfile w) (json_loads w) (loadfile w) get put.

(** The instance [GoogleAuth()] makes when there is no settings file. *)
Definition default_GoogleAuth : GoogleAuth :=
  mkGoogleAuth VNone DEFAULT_SETTINGS ∅ None None None None None
    (<["file" := None]> (<["dictionary" := None]> ∅)) None.

(** The state right after [GoogleAuth(settings=st)] in a new interpreter.
    Settings the constructor rejects leave no instance; for them [fresh]
    answers the default instance, so that whatever it answers is a state
    the constructor makes. *)
Definition fresh (st : gmap string pyval) : state :=
  mkState SERVICE_CONFIGS_LIST_init
    (match new_GoogleAuth VNone st with
     | inr g => g
     | inl _ => default_GoogleAuth
     end).

Definition flow0 : Flow :=
  mkFlow (VStr "id.apps.example") (VStr "secret") (VStr drive_scope)
    (VStr "http://localhost") (VStr "https://accounts.example/o/oauth2/auth")
    (VStr "https://oauth2.example/token") None VNone
    (<["access_type" := "online"]> ∅).

(** A fresh instance that was handed the credential [c]. *)
Definition holding (c : Credentials) (st : gmap string pyval) : state :=
  on_self (with_credentials (Some c)) (fresh st).

(** The number of redirect requests a run served. *)
Definition requests_served (tr : list event) : nat :=
  List.length (List.filter is_HandleRequest tr).



(** A freshly constructed instance whose [flow] attribute was assigned
    the flow [flow0]; its [client_config] is still empty. *)
Definition with_flow0 (st : gmap string pyval) : state :=
  on_self (with_flow (Some flow0)) (fresh st).

(** Settings from which [oauth_scope] is missing. *)
Definition settings_without_scope : gmap string pyval :=
  <["client_config_backend" := VStr "file"]>
  (<["client_config_file" := VStr "client_secrets.json"]>
  (<["save_credentials" := VBool false]> ∅)).

(** The settings of an instance are those a constructor validated. *)
Definition validated (st : gmap string pyval) : Prop :=
  exists data, ValidateSettings data = inr st.

(** The first of [configs] that [service_config] holds with a truthy
    value: the key material variant the loader selects. *)
Definition first_configured (sc : gmap string pyval) (configs : list string)
    : option string :=
  List.find (fun k => truthy (dict_get sc k)) configs.




Definition key_dict0 : pyval :=
  VDict (<["type" := VStr "service_account"]>
         (<["client_email" := VStr "robot@project.example"]> ∅)).

(** Service settings configuring both an inline key dict and a key file. *)
Definition service_settings_both : gmap string pyval :=
  <["client_config_backend" := VStr "service"]>
  (<["service_config" :=
       VDict (<["client_json_file_path" := VStr "key.json"]>
             (<["client_json_dict" := key_dict0]>
             (<["client_user_email" := VStr "user@example.org"]> ∅)))]>
  (<["save_credentials" := VBool false]>
  (<["oauth_scope" := VList [VStr drive_scope]]> ∅))).

(** Service settings selecting the PKCS12 variant. *)
Definition service_settings_p12 : gmap string pyval :=
  <["client_config_backend" := VStr "service"]>
  (<["service_config" :=
       VDict (<["client_pkcs12_file_path" := VStr "key.p12"]>
             (<["client_service_email" := VStr "robot@project.example"]>
             (<["client_user_email" := VStr "user@example.org"]> ∅)))]>
  (<["save_credentials" := VBool false]>
  (<["oauth_scope" := VList [VStr drive_scope]]> ∅))).

(** Service settings with a key file only. *)
Definition service_settings_file : gmap string pyval :=
  <["client_config_backend" := VStr "service"]>
  (<["service_config" :=
       VDict (<["client_json_file_path" := VStr "key.json"]>
             (<["client_user_email" := VStr "user@example.org"]> ∅))]>
  (<["save_credentials" := VBool false]>
  (<["oauth_scope" := VList [VStr drive_scope]]> ∅))).


(** A client configuration that already holds every required field, a key
    JSON string and a key file path. *)
Definition client_config_json : gmap string pyval :=
  <["client_json" := VStr "{...}"]>
  (<["client_json_file_path" := VStr "key.json"]>
  (<["client_user_email" := VNone]> ∅)).

(** A world in which each kind of key material gives a credential of its
    own (told apart by the expiry), and inline key JSON parses to the key
    dict. *)
Definition world_keys : world :=
  mkWorld 1000 (fun _ => true) (fun _ _ => true) ∅ EmptyString
    (fun _ => EmptyString)
    (fun _ => mkDeviceFlowInfo EmptyString EmptyString EmptyString)
    (fun _ _ => (200, VNone)) (fun _ _ => inl "unused")
    (fun c => inr c) (fun _ => true) (fun _ => inl "unused")
    (fun _ _ => inr (cred None 5000))
    (fun _ _ => inr (cred None 6000))
    (fun _ _ _ => inr (cred None 7000))
    (fun _ => inr key_dict0) (fun _ => inl "unused")
    (fun _ => inr None) (fun _ _ => true).

(** An instance whose [client_config] was filled in directly. *)
Definition configured (cc : gmap string pyval) (st : gmap string pyval)
    : state :=
  on_self (with_client_config cc) (fresh st).

(** The state after [self.client_config[k] = v]. *)
Definition put_client_config (k : string) (v : pyval) (s : state) : state :=
  on_self (fun g => with_client_config (<[k := v]> (client_config g)) g) s.

(** [client_type in (TYPE_WEB, TYPE_INSTALLED)]. *)
Definition known_client_type (ty : pyval) : bool :=
  eq_str ty TYPE_WEB || eq_str ty TYPE_INSTALLED.

(** The fields of the client info a client secrets file has to provide. *)
Definition required_client_fields : list string :=
  ["client_id"; "client_secret"; "auth_uri"; "token_uri"; "redirect_uris"].

(** The two [try] blocks that follow the checks of the file. *)
Definition copy_client_info (info : gmap string pyval) : M unit :=
  try_except
    (for_each ["client_id"; "client_secret"; "auth_uri"; "token_uri"]
       (fun config =>
          v <- dict_item info config ;; client_config_set config v) ;;
     client_config_set "revoke_uri" (dict_get info "revoke_uri") ;;
     uris <- dict_item info "redirect_uris" ;;
     uri <- item0 uris ;;
     client_config_set "redirect_uri" uri)
    is_KeyError
    (fun _ =>
       raise (InvalidConfigError "Insufficient client config in file")) ;;
  try_except
    (for_each ["client_email"]
       (fun config =>
          v <- dict_item info config ;; client_config_set config v))
    is_KeyError
    (fun _ => ret tt).

(** A client info with every required key and an empty list of redirect
    URIs, and a world whose client secrets file holds it. *)
Definition client_info_no_uri : gmap string pyval :=
  <["redirect_uris" := VList []]> client_info_ok.

Definition world_secrets (ty : string) (info : gmap string pyval) : world :=
  sample_world 1000 (fun _ _ => true) ∅ (fun c => inr c)
    (fun _ => inr (VStr ty, info)).

(** The backend [LoadCredentials] and [SaveCredentials] resolve: the
    argument, or the [save_credentials_backend] setting when it is None. *)
Definition resolved_backend (backend : pyval) (s : state) : pyval :=
  if is_None backend
  then dict_get (settings (self s)) "save_credentials_backend"
  else backend.

Definition redis_settings : gmap string pyval :=
  <["save_credentials" := VBool true]>
  (<["save_credentials_backend" := VStr "redis"]>
  (<["redis_key" := VStr "gdrive-credentials"]> DEFAULT_SETTINGS)).

Definition file_settings : gmap string pyval :=
  <["save_credentials" := VBool true]>
  (<["save_credentials_backend" := VStr "file"]>
  (<["save_credentials_file" := VStr "credentials.json"]>
   DEFAULT_SETTINGS)).

Definition dictionary_settings : gmap string pyval :=
  <["save_credentials" := VBool true]>
  (<["save_credentials_backend" := VStr "dictionary"]>
  (<["save_credentials_dict" := VDict ∅]>
  (<["save_credentials_key" := VStr "creds"]> DEFAULT_SETTINGS))).

(** Settings that configure a file store but switch persistence off. *)
Definition unsaved_file_settings : gmap string pyval :=
  <["save_credentials" := VBool false]> file_settings.

(* ===================================================================== *)
(** * Reasoning principles *)

(** ** Equations of the monad *)

Lemma extend_nil {A} (o : outcome A) : extend [] o = o.
Proof. destruct o; reflexivity. Qed.

Lemma trace_extend {A} tr (o : outcome A) :
  trace (extend tr o) = (tr ++ trace o)%list.
Proof. destruct o; reflexivity. Qed.

Lemma final_extend {A} tr (o : outcome A) : final (extend tr o) = final o.
Proof. destruct o; reflexivity. Qed.

Lemma result_extend {A} tr (o : outcome A) : result (extend tr o) = result o.
Proof. destruct o; reflexivity. Qed.

Lemma bind_ret {A B} (a : A) (k : A -> M B) w s :
  bind (ret a) k w s = k a w s.
Proof. unfold bind, ret. apply extend_nil. Qed.

Lemma bind_gets {A B} (f : GoogleAuth -> A) (k : A -> M B) w s :
  bind (gets f) k w s = k (f (self s)) w s.
Proof. unfold bind, gets. apply extend_nil. Qed.



Lemma bind_modify {B} (f : GoogleAuth -> GoogleAuth) (k : unit -> M B) w s :
  bind (modify f) k w s = k tt w (on_self f s).
Proof. unfold bind, modify. apply extend_nil. Qed.


Lemma bind_raise {A B} (e : exn) (k : A -> M B) w s :
  bind (raise e) k w s = raise e w s.
Proof. reflexivity. Qed.

Lemma extend_extend {A} tr tr' (o : outcome A) :
  extend tr (extend tr' o) = extend (tr ++ tr')%list o.
Proof. destruct o; simpl. rewrite app_assoc. reflexivity. Qed.

Lemma bind_assoc {A B C} (m : M A) (f : A -> M B) (g : B -> M C) w s :
  bind (bind m f) g w s = bind m (fun a => bind (f a) g) w s.
Proof.
  unfold bind. destruct (m w s) as [tr s1 [e|a]]; [reflexivity|].
  destruct (f a w s1) as [tr' s2 [e|b]]; simpl; [reflexivity|].
  symmetry. apply extend_extend.
Qed.

(** A first step that is known to return, or to raise. *)
Lemma bind_run {A B} (m : M A) (k : A -> M B) w s tr s1 a :
  m w s = mkOutcome tr s1 (inr a) -> bind m k w s = extend tr (k a w s1).
Proof. intros H. unfold bind. rewrite H. reflexivity. Qed.

Lemma bind_fail {A B} (m : M A) (k : A -> M B) w s tr s1 e :
  m w s = mkOutcome tr s1 (inl e) -> bind m k w s = mkOutcome tr s1 (inl e).
Proof. intros H. unfold bind. rewrite H. reflexivity. Qed.

Lemma try_except_ok {A} (m : M A) c h w s tr s1 a :
  m w s = mkOutcome tr s1 (inr a) ->
  try_except m c h w s = mkOutcome tr s1 (inr a).
Proof. intros H. unfold try_except. rewrite H. reflexivity. Qed.

Lemma try_except_caught {A} (m : M A) c h w s tr s1 e :
  m w s = mkOutcome tr s1 (inl e) -> c e = true ->
  try_except m c h w s = extend tr (h e w s1).
Proof. intros H Hc. unfold try_except. rewrite H, Hc. reflexivity. Qed.

Lemma try_except_uncaught {A} (m : M A) c h w s tr s1 e :
  m w s = mkOutcome tr s1 (inl e) -> c e = false ->
  try_except m c h w s = mkOutcome tr s1 (inl e).
Proof. intros H Hc. unfold try_except. rewrite H, Hc. reflexivity. Qed.

(** Evaluation of the monad's operations, leaving maps and strings alone. *)
Ltac run :=
  cbn [bind ret raise gets modify ask emit print when attr_of lift_call
       try_except extend get_class_list set_class_list
       trace final result self SERVICE_CONFIGS_LIST on_self
       settings client_config flow credentials http service auth_method
       _storages _default_storage http_timeout
       with_client_config with_flow with_credentials with_http with_service
       with_auth_method with_default_storage
       fst snd app].

Ltac run_try := unfold try_except; run.

(** The same, re-associating nested sequences on the way. *)
Ltac run_flat := repeat (progress (rewrite ?bind_assoc; run)).


(** ** Frame conditions *)
Section Respects.
Variable R : state -> state -> Prop.
Variable P : event -> Prop.
Hypothesis R_refl : forall s, R s s.
Hypothesis R_trans : forall s1 s2 s3, R s1 s2 -> R s2 s3 -> R s1 s3.

Lemma respects_ret {A} (a : A) : respects R P (ret a).
Proof. intros w s; simpl; split; [apply R_refl | constructor]. Qed.

Lemma respects_raise {A} (e : exn) : respects R P (@raise A e).
Proof. intros w s; simpl; split; [apply R_refl | constructor]. Qed.

Lemma respects_gets {A} (f : GoogleAuth -> A) : respects R P (gets f).
Proof. intros w s; simpl; split; [apply R_refl | constructor]. Qed.

Lemma respects_ask {A} (f : world -> A) : respects R P (ask f).
Proof. intros w s; simpl; split; [apply R_refl | constructor]. Qed.

Lemma respects_get_class_list : respects R P get_class_list.
Proof. intros w s; simpl; split; [apply R_refl | constructor]. Qed.

Lemma respects_emit (e : event) : P e -> respects R P (emit e).
Proof.
  intros He w s; simpl; split; [apply R_refl | repeat constructor; exact He].
Qed.

Lemma respects_modify (f : GoogleAuth -> GoogleAuth) :
  (forall s, R s (on_self f s)) -> respects R P (modify f).
Proof. intros Hf w s; simpl; split; [apply Hf | constructor]. Qed.

Lemma respects_set_class_list (l : list string) :
  (forall s, R s (mkState l (self s))) -> respects R P (set_class_list l).
Proof. intros Hf w s; simpl; split; [apply Hf | constructor]. Qed.

Lemma respects_bind {A B} (m : M A) (k : A -> M B) :
  respects R P m -> (forall a, respects R P (k a)) -> respects R P (bind m k).
Proof.
  intros Hm Hk w s. unfold bind.
  destruct (Hm w s) as [HR HP].
  destruct (m w s) as [tr s1 [e|a]]; simpl in *; [split; assumption|].
  destruct (Hk a w s1) as [HR' HP'].
  rewrite final_extend, trace_extend.
  split; [eapply R_trans; eassumption | apply Forall_app; split; assumption].
Qed.

Lemma respects_try_except {A} (m : M A) (c : exn -> bool) (h : exn -> M A) :
  respects R P m -> (forall e, respects R P (h e)) ->
  respects R P (try_except m c h).
Proof.
  intros Hm Hh w s. unfold try_except.
  destruct (Hm w s) as [HR HP].
  destruct (m w s) as [tr s1 [e|a]]; simpl in *; [|split; assumption].
  destruct (c e); [|split; assumption].
  destruct (Hh e w s1) as [HR' HP'].
  rewrite final_extend, trace_extend.
  split; [eapply R_trans; eassumption | apply Forall_app; split; assumption].
Qed.

Lemma respects_when (b : bool) (m : M unit) :
  respects R P m -> respects R P (when b m).
Proof. intros Hm. destruct b; simpl; [exact Hm | apply respects_ret]. Qed.

Lemma respects_for_each {A} (l : list A) (body : A -> M unit) :
  (forall a, respects R P (body a)) -> respects R P (for_each l body).
Proof.
  intros Hb. induction l as [|x l IH]; simpl.
  - apply respects_ret.
  - apply respects_bind; [apply Hb | intros _; exact IH].
Qed.

Lemma respects_lift_call {A} (mk : string -> exn) (r : string + A) :
  respects R P (lift_call mk r).
Proof. destruct r; simpl; [apply respects_raise | apply respects_ret]. Qed.

Lemma respects_attr_of {A} (o : option A) : respects R P (attr_of o).
Proof. destruct o; simpl; [apply respects_ret | apply respects_raise]. Qed.

Lemma respects_trace {A} (m : M A) w s :
  respects R P m -> Forall P (trace (m w s)).
Proof. intros H; apply H. Qed.
End Respects.

(** ** Methods that leave the settings and the stores alone *)

Lemma same_settings_refl s : same_settings s s.
Proof. reflexivity. Qed.

Lemma same_settings_trans s1 s2 s3 :
  same_settings s1 s2 -> same_settings s2 s3 -> same_settings s1 s3.
Proof. unfold same_settings; congruence. Qed.


Create HintDb quiet.

Ltac quiet_side :=
  first [ exact same_settings_refl
        | exact same_settings_trans
        | reflexivity
        | intros; reflexivity ].

Ltac quiet_step :=
  lazymatch goal with
  | |- respects _ _ (bind _ _) =>
      apply respects_bind; [quiet_side | | intros ?]
  | |- respects _ _ (ret _) => apply respects_ret; quiet_side
  | |- respects _ _ (raise _) => apply respects_raise; quiet_side
  | |- respects _ _ (gets _) => apply respects_gets; quiet_side
  | |- respects _ _ (ask _) => apply respects_ask; quiet_side
  | |- respects _ _ get_class_list =>
      apply respects_get_class_list; quiet_side
  | |- respects _ _ (set_class_list _) =>
      apply respects_set_class_list; quiet_side
  | |- respects _ _ (emit _) => apply respects_emit; quiet_side
  | |- respects _ _ (print _) => apply respects_emit; quiet_side
  | |- respects _ _ (modify _) => apply respects_modify; quiet_side
  | |- respects _ _ (try_except _ _ _) =>
      apply respects_try_except; [quiet_side | | intros ?]
  | |- respects _ _ (when (andb ?b false) _) =>
      rewrite (andb_false_r b); apply respects_ret; quiet_side
  | |- respects _ _ (when _ _) => apply respects_when; [quiet_side |]
  | |- respects _ _ (for_each _ _) =>
      apply respects_for_each; [quiet_side | quiet_side | intros ?]
  | |- respects _ _ (lift_call _ _) => apply respects_lift_call; quiet_side
  | |- respects _ _ (attr_of _) => apply respects_attr_of; quiet_side
  | |- respects _ _ (match ?x with _ => _ end) => destruct x
  | |- respects _ _ (let _ := _ in _) => cbv zeta
  | |- respects same_settings not_storage ?m =>
      change (quiet m); solve [auto with quiet]
  end.

Ltac quiet_tac := unfold quiet; repeat quiet_step.

Lemma quiet_dict_item d k : quiet (dict_item d k).
Proof. unfold dict_item. quiet_tac. Qed.
#[export] Hint Resolve quiet_dict_item : quiet.

Lemma quiet_subscript v k : quiet (subscript v k).
Proof. unfold subscript, dict_item. quiet_tac. Qed.
#[export] Hint Resolve quiet_subscript : quiet.

Lemma quiet_method_get v k : quiet (method_get v k).
Proof. unfold method_get. quiet_tac. Qed.
#[export] Hint Resolve quiet_method_get : quiet.

Lemma quiet_item0 v : quiet (item0 v).
Proof. unfold item0. quiet_tac. Qed.
#[export] Hint Resolve quiet_item0 : quiet.

Lemma quiet_client_config_set k v : quiet (client_config_set k v).
Proof. unfold client_config_set. quiet_tac. Qed.
#[export] Hint Resolve quiet_client_config_set : quiet.

Lemma quiet_scopes_to_string v : quiet (scopes_to_string v).
Proof. unfold scopes_to_string. quiet_tac. Qed.
#[export] Hint Resolve quiet_scopes_to_string : quiet.

Lemma quiet_flow_update f : quiet (flow_update f).
Proof. unfold flow_update. quiet_tac. Qed.
#[export] Hint Resolve quiet_flow_update : quiet.

Lemma quiet_clientsecrets_loadfile f : quiet (clientsecrets_loadfile f).
Proof. unfold clientsecrets_loadfile. quiet_tac. Qed.
#[export] Hint Resolve quiet_clientsecrets_loadfile : quiet.

Lemma quiet_Flow_step2_exchange f code : quiet (Flow_step2_exchange f code).
Proof. unfold Flow_step2_exchange. quiet_tac. Qed.
#[export] Hint Resolve quiet_Flow_step2_exchange : quiet.

Lemma quiet_ClientRedirectServer addr port :
  quiet (ClientRedirectServer addr port).
Proof. unfold ClientRedirectServer. quiet_tac. Qed.
#[export] Hint Resolve quiet_ClientRedirectServer : quiet.

Lemma quiet_access_token_expired : quiet access_token_expired.
Proof.
  unfold access_token_expired, Credentials_access_token_expired. quiet_tac.
Qed.
#[export] Hint Resolve quiet_access_token_expired : quiet.

Lemma quiet__build_http : quiet _build_http.
Proof. unfold _build_http. quiet_tac. Qed.
#[export] Hint Resolve quiet__build_http : quiet.

Lemma quiet_Authorize : quiet Authorize.
Proof. unfold Authorize. quiet_tac. Qed.
#[export] Hint Resolve quiet_Authorize : quiet.

Lemma quiet_LoadClientConfigFile f : quiet (LoadClientConfigFile f).
Proof. unfold LoadClientConfigFile. quiet_tac. Qed.
#[export] Hint Resolve quiet_LoadClientConfigFile : quiet.

Lemma quiet_first_service_config l : quiet (first_service_config l).
Proof. induction l as [|c l IH]; simpl; quiet_tac. Qed.
#[export] Hint Resolve quiet_first_service_config : quiet.

Lemma quiet_load_required_service_config c :
  quiet (load_required_service_config c).
Proof. unfold load_required_service_config. quiet_tac. Qed.
#[export] Hint Resolve quiet_load_required_service_config : quiet.

Lemma quiet_LoadServiceConfigSettings : quiet LoadServiceConfigSettings.
Proof. unfold LoadServiceConfigSettings. quiet_tac. Qed.
#[export] Hint Resolve quiet_LoadServiceConfigSettings : quiet.

Lemma quiet_LoadClientConfigSettings : quiet LoadClientConfigSettings.
Proof. unfold LoadClientConfigSettings. quiet_tac. Qed.
#[export] Hint Resolve quiet_LoadClientConfigSettings : quiet.

Lemma quiet_LoadClientConfig b : quiet (LoadClientConfig b).
Proof. unfold LoadClientConfig. quiet_tac. Qed.
#[export] Hint Resolve quiet_LoadClientConfig : quiet.

Lemma quiet_GetFlow : quiet GetFlow.
Proof. unfold GetFlow. quiet_tac. Qed.
#[export] Hint Resolve quiet_GetFlow : quiet.

Lemma quiet_GetDeviceCode : quiet GetDeviceCode.
Proof. unfold GetDeviceCode. quiet_tac. Qed.
#[export] Hint Resolve quiet_GetDeviceCode : quiet.

Lemma quiet_GetAuthUrl : quiet GetAuthUrl.
Proof. unfold GetAuthUrl. quiet_tac. Qed.
#[export] Hint Resolve quiet_GetAuthUrl : quiet.

Lemma quiet_Authenticate code : quiet (Authenticate code).
Proof. unfold Authenticate. quiet_tac. Qed.
#[export] Hint Resolve quiet_Authenticate : quiet.

Lemma quiet_Auth code : quiet (Auth code).
Proof. unfold Auth. quiet_tac. Qed.
#[export] Hint Resolve quiet_Auth : quiet.

Lemma quiet_try_ports addr ports p : quiet (try_ports addr ports p).
Proof.
  revert p. induction ports as [|q ports IH]; intros p; simpl; quiet_tac.
Qed.
#[export] Hint Resolve quiet_try_ports : quiet.

Lemma quiet_LocalWebserverAuth_body host ports lb addr :
  quiet (LocalWebserverAuth_body host ports lb addr).
Proof. unfold LocalWebserverAuth_body. quiet_tac. Qed.
#[export] Hint Resolve quiet_LocalWebserverAuth_body : quiet.

Lemma quiet_CommandLineAuth_body : quiet CommandLineAuth_body.
Proof. unfold CommandLineAuth_body. quiet_tac. Qed.
#[export] Hint Resolve quiet_CommandLineAuth_body : quiet.

Lemma quiet_fromtimestamp_div_1e3 v : quiet (fromtimestamp_div_1e3 v).
Proof. unfold fromtimestamp_div_1e3. quiet_tac. Qed.
#[export] Hint Resolve quiet_fromtimestamp_div_1e3 : quiet.

Lemma quiet_DeviceAuth_body : quiet DeviceAuth_body.
Proof. unfold DeviceAuth_body. quiet_tac. Qed.
#[export] Hint Resolve quiet_DeviceAuth_body : quiet.

Lemma quiet_ServiceAuth_body : quiet ServiceAuth_body.
Proof. unfold ServiceAuth_body. quiet_tac. Qed.
#[export] Hint Resolve quiet_ServiceAuth_body : quiet.

Lemma quiet_bind_default_store : quiet bind_default_store.
Proof. unfold bind_default_store. quiet_tac. Qed.
#[export] Hint Resolve quiet_bind_default_store : quiet.

(** ** Methods that leave the session alone *)

Lemma keeps_session_refl s : keeps_session s s.
Proof. repeat split. Qed.

Lemma keeps_session_trans s1 s2 s3 :
  keeps_session s1 s2 -> keeps_session s2 s3 -> keeps_session s1 s3.
Proof. unfold keeps_session. intuition congruence. Qed.

(** One step of a frame proof: [refl] and [trans] are the two facts about
    the relation, [side] proves that an assignment or an event is allowed,
    [known] closes a goal about a method already dealt with. *)
Ltac frame_step refl trans side known :=
  lazymatch goal with
  | |- respects _ _ (bind get_class_list (fun l => set_class_list _)) => known
  | |- respects _ _ (bind _ _) =>
      apply respects_bind; [exact trans | | intros ?]
  | |- respects _ _ (ret _) => apply respects_ret; exact refl
  | |- respects _ _ (raise _) => apply respects_raise; exact refl
  | |- respects _ _ (gets _) => apply respects_gets; exact refl
  | |- respects _ _ (ask _) => apply respects_ask; exact refl
  | |- respects _ _ get_class_list =>
      apply respects_get_class_list; exact refl
  | |- respects _ _ (emit _) => apply respects_emit; [exact refl | side]
  | |- respects _ _ (print _) => apply respects_emit; [exact refl | side]
  | |- respects _ _ (modify _) => apply respects_modify; side
  | |- respects _ _ (try_except _ _ _) =>
      apply respects_try_except; [exact trans | | intros ?]
  | |- respects _ _ (when _ _) => apply respects_when; [exact refl |]
  | |- respects _ _ (for_each _ _) =>
      apply respects_for_each; [exact refl | exact trans | intros ?]
  | |- respects _ _ (lift_call _ _) => apply respects_lift_call; exact refl
  | |- respects _ _ (attr_of _) => apply respects_attr_of; exact refl
  | |- respects _ _ (match ?x with _ => _ end) => destruct x
  | |- respects _ _ (let _ := _ in _) => cbv zeta
  | |- respects _ _ _ => known
  end.

Create HintDb session.

Ltac session_side :=
  first [ eexists; reflexivity
        | intros ?s;
          exact (conj eq_refl (conj eq_refl (conj eq_refl eq_refl))) ].

Ltac session_tac :=
  repeat frame_step keeps_session_refl keeps_session_trans
    ltac:(session_side) ltac:(solve [auto with session nocore]).

Lemma session_append_service_email :
  respects keeps_session reads_client_secrets
    (l <- get_class_list ;; set_class_list (l ++ ["client_service_email"])).
Proof. intros w s. cbn. split; [repeat split | constructor]. Qed.
#[export] Hint Resolve session_append_service_email : session.

Lemma session_dict_item d k :
  respects keeps_session reads_client_secrets (dict_item d k).
Proof. unfold dict_item. session_tac. Qed.
#[export] Hint Resolve session_dict_item : session.

Lemma session_subscript v k :
  respects keeps_session reads_client_secrets (subscript v k).
Proof. unfold subscript. session_tac. Qed.
#[export] Hint Resolve session_subscript : session.

Lemma session_method_get v k :
  respects keeps_session reads_client_secrets (method_get v k).
Proof. unfold method_get. session_tac. Qed.
#[export] Hint Resolve session_method_get : session.

Lemma session_item0 v :
  respects keeps_session reads_client_secrets (item0 v).
Proof. unfold item0. session_tac. Qed.
#[export] Hint Resolve session_item0 : session.

Lemma session_client_config_set k v :
  respects keeps_session reads_client_secrets (client_config_set k v).
Proof. unfold client_config_set. session_tac. Qed.
#[export] Hint Resolve session_client_config_set : session.

Lemma session_scopes_to_string v :
  respects keeps_session reads_client_secrets (scopes_to_string v).
Proof. unfold scopes_to_string. session_tac. Qed.
#[export] Hint Resolve session_scopes_to_string : session.

Lemma session_clientsecrets_loadfile f :
  respects keeps_session reads_client_secrets (clientsecrets_loadfile f).
Proof. unfold clientsecrets_loadfile. session_tac. Qed.
#[export] Hint Resolve session_clientsecrets_loadfile : session.

Lemma session_LoadClientConfigFile f :
  respects keeps_session reads_client_secrets (LoadClientConfigFile f).
Proof. unfold LoadClientConfigFile. session_tac. Qed.
#[export] Hint Resolve session_LoadClientConfigFile : session.

Lemma session_first_service_config l :
  respects keeps_session reads_client_secrets (first_service_config l).
Proof. induction l as [|c l IH]; simpl; session_tac. Qed.
#[export] Hint Resolve session_first_service_config : session.

Lemma session_load_required_service_config c :
  respects keeps_session reads_client_secrets (load_required_service_config c).
Proof. unfold load_required_service_config. session_tac. Qed.
#[export] Hint Resolve session_load_required_service_config : session.

Lemma session_LoadServiceConfigSettings :
  respects keeps_session reads_client_secrets LoadServiceConfigSettings.
Proof. unfold LoadServiceConfigSettings. session_tac. Qed.
#[export] Hint Resolve session_LoadServiceConfigSettings : session.

Lemma session_LoadClientConfigSettings :
  respects keeps_session reads_client_secrets LoadClientConfigSettings.
Proof. unfold LoadClientConfigSettings. session_tac. Qed.
#[export] Hint Resolve session_LoadClientConfigSettings : session.

Lemma session_LoadClientConfig b :
  respects keeps_session reads_client_secrets (LoadClientConfig b).
Proof. unfold LoadClientConfig. session_tac. Qed.
#[export] Hint Resolve session_LoadClientConfig : session.

Lemma session_GetFlow :
  respects keeps_session reads_client_secrets GetFlow.
Proof. unfold GetFlow. session_tac. Qed.
#[export] Hint Resolve session_GetFlow : session.

(** The traces of a sequence and of a handled block. *)
Lemma Forall_trace_bind {A B} (P : event -> Prop) (m : M A) (k : A -> M B)
    w s :
  Forall P (trace (m w s)) ->
  (forall a, result (m w s) = inr a ->
     Forall P (trace (k a w (final (m w s))))) ->
  Forall P (trace (bind m k w s)).
Proof.
  unfold bind. destruct (m w s) as [tr s1 [e|a]]; cbn [trace final result];
    intros H1 H2; [exact H1|].
  rewrite trace_extend. apply Forall_app. split; [exact H1|].
  apply H2. reflexivity.
Qed.

Lemma trace_try_except_raise {A} (m : M A) c (f : exn -> exn) w s :
  trace (try_except m c (fun e => raise (f e)) w s) = trace (m w s).
Proof.
  unfold try_except. destruct (m w s) as [tr s1 [e|a]]; [|reflexivity].
  destruct (c e); [|reflexivity]. cbn. apply app_nil_r.
Qed.

(* ===================================================================== *)
(** * The token-expiry query, [Authorize] and [Refresh] *)

Lemma access_token_expired_run w s :
  access_token_expired w s = mkOutcome [] s (inr (expired_at w s)).
Proof.
  unfold access_token_expired, expired_at, Credentials_access_token_expired.
  run. destruct (credentials (self s)) as [c|]; reflexivity.
Qed.

(** C3.  [access_token_expired] answers true when no credential is held;
    when a credential is held it answers true exactly if the credential's
    stored expiry is at or before the current time; and it is a pure query:
    the state after the call is the state before it and nothing is logged. *)
Theorem access_token_expired_spec (w : world) (s : state) :
  let o := access_token_expired w s in
  (credentials (self s) = None -> result o = inr true) /\
  (forall c, credentials (self s) = Some c ->
     exists b, result o = inr b /\ (b = true <-> token_expiry c <= now w)) /\
  final o = s /\ trace o = [].
Proof.
  cbv zeta. rewrite access_token_expired_run. unfold expired_at. simpl.
  repeat split.
  - intros ->. reflexivity.
  - intros c ->. eexists; split; [reflexivity|]. apply Z.leb_le.
Qed.

Lemma access_token_expired_spec_witness :
  let s := holding (cred None 1000) DEFAULT_SETTINGS in
  let o := access_token_expired world0 s in
  (credentials (self s) = None -> result o = inr true) /\
  (forall c, credentials (self s) = Some c ->
     exists b, result o = inr b /\ (b = true <-> token_expiry c <= 1000)) /\
  final o = s /\ trace o = [].
Proof.
  exact (access_token_expired_spec world0
           (holding (cred None 1000) DEFAULT_SETTINGS)).
Defined.

Example access_token_expired_at_expiry :
  result (access_token_expired world0
            (holding (cred None 1000) DEFAULT_SETTINGS)) = inr true.
Proof. reflexivity. Qed.

Example access_token_expired_before_expiry :
  result (access_token_expired world0
            (holding (cred None 1001) DEFAULT_SETTINGS)) = inr false.
Proof. reflexivity. Qed.

(** C4.  Called while [access_token_expired] is true, [Authorize] raises
    AuthenticationError and builds no service handle: the state, and with
    it [self.service], is untouched, and no [build] call is made. *)
Theorem Authorize_expired_raises (w : world) (s : state) :
  result (access_token_expired w s) = inr true ->
  let o := Authorize w s in
  result o =
    inl (AuthenticationError "No valid credentials provided to authorize") /\
  final o = s /\
  service (self (final o)) = service (self s) /\
  Forall (fun e => e <> BuildService) (trace o).
Proof.
  rewrite access_token_expired_run. simpl. intros [= H].
  unfold Authorize, bind. rewrite access_token_expired_run.
  rewrite H. run. repeat split. constructor.
Qed.

Lemma Authorize_expired_raises_witness :
  let s := holding (cred (Some "1//rt") 999) DEFAULT_SETTINGS in
  result (access_token_expired world0 s) = inr true /\
  result (Authorize world0 s) =
    inl (AuthenticationError "No valid credentials provided to authorize") /\
  service (self (final (Authorize world0 s))) = None.
Proof.
  cbv zeta.
  assert (H : result (access_token_expired world0
                (holding (cred (Some "1//rt") 999) DEFAULT_SETTINGS))
              = inr true) by reflexivity.
  split; [exact H|].
  destruct (Authorize_expired_raises world0 _ H) as (Hr & _ & Hs & _).
  split; [exact Hr | exact Hs].
Defined.

Example Authorize_valid_builds_service :
  let o := Authorize world0 (holding (cred None 5000) DEFAULT_SETTINGS) in
  result o = inr tt /\ trace o = [BuildService] /\
  service (self (final o)) = Some (DriveV2 (mkHttp VNone false true)).
Proof. vm_compute. repeat split. Qed.

(** ** The refresh of a credential *)

Lemma put_to_bound_store_unbound c w s :
  store c = None -> put_to_bound_store c w s = mkOutcome [] s (inr tt).
Proof. intros H. unfold put_to_bound_store. rewrite H. reflexivity. Qed.

Lemma put_to_bound_store_bound c st w s :
  store c = Some st ->
  put_to_bound_store c w s
  = mkOutcome [StorageLockedPut st (Some c)] s
      (if storage_put w st (Some c) then inr tt else inl OSError).
Proof.
  intros H. unfold put_to_bound_store, Storage_locked_put. rewrite H. run.
  destruct (storage_put w st (Some c)); reflexivity.
Qed.

(** The token request of a credential bound to no store. *)
Lemma _do_refresh_request_unbound c w s :
  store c = None ->
  exists s1,
    _do_refresh_request c w s
    = mkOutcome [TokenRefresh] s1
        (match refresh w c with
         | inl reason => inl (AccessTokenRefreshError reason)
         | inr _ => inr tt
         end).
Proof.
  intros Hst. unfold _do_refresh_request. run.
  destruct (refresh w c) as [reason|c']; run.
  - destruct (refresh_error_in_body w c); run.
    + rewrite !extend_nil, bind_assoc, bind_modify.
      rewrite (bind_run _ _ _ _ _ _ _
                 (put_to_bound_store_unbound (flagged_invalid c) w _ Hst)).
      eexists; reflexivity.
    + eexists; reflexivity.
  - rewrite !extend_nil.
    rewrite (put_to_bound_store_unbound (refreshed c c') w _ Hst).
    eexists; reflexivity.
Qed.

(** The token request of a credential bound to the store [st]. *)
Lemma _do_refresh_request_bound c st w s :
  store c = Some st ->
  exists s1,
    _do_refresh_request c w s
    = match refresh w c with
      | inr c' =>
          mkOutcome
            [TokenRefresh; StorageLockedPut st (Some (refreshed c c'))] s1
            (if storage_put w st (Some (refreshed c c'))
             then inr tt else inl OSError)
      | inl reason =>
          if refresh_error_in_body w c then
            mkOutcome
              [TokenRefresh; StorageLockedPut st (Some (flagged_invalid c))]
              s1
              (if storage_put w st (Some (flagged_invalid c))
               then inl (AccessTokenRefreshError reason) else inl OSError)
          else
            mkOutcome [TokenRefresh] s1
              (inl (AccessTokenRefreshError reason))
      end.
Proof.
  intros Hst. unfold _do_refresh_request. run.
  destruct (refresh w c) as [reason|c']; run.
  - destruct (refresh_error_in_body w c); run.
    + rewrite !extend_nil, bind_assoc, bind_modify. unfold bind.
      rewrite (put_to_bound_store_bound (flagged_invalid c) st)
        by exact Hst.
      destruct (storage_put w st (Some (flagged_invalid c)));
        eexists; reflexivity.
    + eexists; reflexivity.
  - rewrite !extend_nil.
    rewrite (put_to_bound_store_bound (refreshed c c') st) by exact Hst.
    eexists; reflexivity.
Qed.

Lemma Storage_locked_get_run st w s :
  Storage_locked_get st w s
  = mkOutcome [StorageLockedGet st] s
      (match storage_get w st with
       | inl _ => inl OSError
       | inr c => inr c
       end).
Proof.
  unfold Storage_locked_get. run.
  destruct (storage_get w st) as [[]|c]; reflexivity.
Qed.

Lemma Credentials_refresh_unbound c w s :
  credentials (self s) = Some c -> store c = None ->
  exists s1,
    Credentials_refresh w s
    = mkOutcome [TokenRefresh] s1
        (match refresh w c with
         | inl reason => inl (AccessTokenRefreshError reason)
         | inr _ => inr tt
         end).
Proof.
  intros Hc Hst. unfold Credentials_refresh. run. rewrite Hc. run.
  rewrite Hst, !extend_nil. apply _do_refresh_request_unbound. exact Hst.
Qed.

Lemma Credentials_refresh_bound c st w s :
  credentials (self s) = Some c -> store c = Some st ->
  exists s1,
    Credentials_refresh w s
    = match storage_get w st with
      | inl _ => mkOutcome [StorageLockedGet st] s1 (inl OSError)
      | inr stored =>
          match usable_stored w c stored with
          | Some n =>
              mkOutcome [StorageLockedGet st]
                (on_self (with_credentials
                            (Some (_updateFromCredential n c))) s)
                (inr tt)
          | None => extend [StorageLockedGet st] (_do_refresh_request c w s)
          end
      end.
Proof.
  intros Hc Hst. unfold Credentials_refresh. run. rewrite Hc. run.
  rewrite Hst, !extend_nil. unfold bind at 1.
  rewrite Storage_locked_get_run.
  destruct (storage_get w st) as [[]|[n|]].
  - eexists; reflexivity.
  - unfold Credentials_access_token_expired, usable_stored. run.
    destruct (negb (invalid n)
              && negb (String.eqb (access_token n) (access_token c))
              && negb (token_expiry n <=? now w)); run;
      rewrite ?extend_nil; exists s; reflexivity.
  - exists s; reflexivity.
Qed.

(** [Refresh] past its two guards: the http object is seen to, then the
    credential is refreshed. *)
Lemma Refresh_past_guards c w s :
  credentials (self s) = Some c ->
  (refresh_token c <> None \/ auth_method (self s) = Some "service") ->
  exists s1,
    credentials (self s1) = Some c /\
    settings (self s1) = settings (self s) /\
    Refresh w s
    = try_except Credentials_refresh is_AccessTokenRefreshError
        (fun error =>
           raise (RefreshError
                    ("Access token refresh failed: " +:+ exn_str error)))
        w s1.
Proof.
  intros Hc Hok. unfold Refresh. rewrite bind_gets, Hc, bind_gets.
  assert (Hb : bool_decide (refresh_token c = None)
               && negb (bool_decide (auth_method (self s) = Some "service"))
               = false).
  { apply andb_false_iff. destruct Hok as [H|H].
    - left. apply bool_decide_eq_false. exact H.
    - right. apply negb_false_iff, bool_decide_eq_true. exact H. }
  rewrite Hb, bind_gets.
  destruct (http (self s)) as [h|].
  - rewrite bind_ret. exists s. repeat split. exact Hc.
  - unfold _build_http.
    rewrite !bind_assoc, bind_gets, bind_ret, bind_modify.
    eexists. split; [|split; [|reflexivity]]; [exact Hc | reflexivity].
Qed.

Lemma Refresh_guarded w s :
  credentials (self s) = None \/
  (exists c, credentials (self s) = Some c /\ refresh_token c = None /\
             auth_method (self s) <> Some "service") ->
  (exists msg, result (Refresh w s) = inl (RefreshError msg)) /\
  trace (Refresh w s) = [].
Proof.
  unfold Refresh. rewrite bind_gets.
  intros [Hc|(c & Hc & Hrt & Ham)]; rewrite Hc.
  - split; [eexists|]; reflexivity.
  - rewrite bind_gets.
    rewrite (bool_decide_eq_true_2 _ Hrt), (bool_decide_eq_false_2 _ Ham).
    split; [eexists|]; reflexivity.
Qed.

Lemma past_guards_iff c s :
  credentials (self s) = Some c ->
  (refresh_token c <> None \/ auth_method (self s) = Some "service") <->
  ~ (credentials (self s) = None \/
     exists c0, credentials (self s) = Some c0 /\ refresh_token c0 = None /\
                auth_method (self s) <> Some "service").
Proof.
  intros Hc. split.
  - intros Hok [H|(c0 & H & Hrt & Ham)]; [congruence|].
    assert (c0 = c) by congruence. subst c0. destruct Hok; contradiction.
  - intros Hno.
    destruct (decide (refresh_token c = None)) as [Hrt|Hrt]; [|left; exact Hrt].
    destruct (decide (auth_method (self s) = Some "service")) as [Ham|Ham];
      [right; exact Ham|].
    exfalso. apply Hno. right. exists c. repeat split; assumption.
Qed.

(** [Refresh] of a credential bound to no store. *)
Lemma Refresh_unbound_run c w s :
  credentials (self s) = Some c -> store c = None ->
  (refresh_token c <> None \/ auth_method (self s) = Some "service") ->
  trace (Refresh w s) = [TokenRefresh] /\
  result (Refresh w s)
  = match refresh w c with
    | inl reason =>
        inl (RefreshError ("Access token refresh failed: " +:+ reason))
    | inr _ => inr tt
    end.
Proof.
  intros Hc Hst Hok.
  destruct (Refresh_past_guards c w s Hc Hok) as (s1 & Hc1 & _ & ->).
  destruct (Credentials_refresh_unbound c w s1 Hc1 Hst) as (s2 & Hrun).
  unfold try_except. rewrite Hrun.
  destruct (refresh w c) as [reason|c']; split; reflexivity.
Qed.

(** [Refresh] of a credential bound to the store [st]. *)
Lemma Refresh_bound_run c st w s :
  credentials (self s) = Some c -> store c = Some st ->
  (refresh_token c <> None \/ auth_method (self s) = Some "service") ->
  let o := Refresh w s in
  match storage_get w st with
  | inl _ => trace o = [StorageLockedGet st] /\ result o = inl OSError
  | inr stored =>
      match usable_stored w c stored with
      | Some n =>
          trace o = [StorageLockedGet st] /\ result o = inr tt /\
          credentials (self (final o)) = Some (_updateFromCredential n c)
      | None =>
          match refresh w c with
          | inr c' =>
              trace o = [StorageLockedGet st; TokenRefresh;
                         StorageLockedPut st (Some (refreshed c c'))] /\
              result o = (if storage_put w st (Some (refreshed c c'))
                          then inr tt else inl OSError)
          | inl reason =>
              if refresh_error_in_body w c then
                trace o = [StorageLockedGet st; TokenRefresh;
                           StorageLockedPut st (Some (flagged_invalid c))] /\
                result o
                = (if storage_put w st (Some (flagged_invalid c))
                   then inl (RefreshError
                               ("Access token refresh failed: " +:+ reason))
                   else inl OSError)
              else
                trace o = [StorageLockedGet st; TokenRefresh] /\
                result o
                = inl (RefreshError
                         ("Access token refresh failed: " +:+ reason))
          end
      end
  end.
Proof.
  intros Hc Hst Hok. cbv zeta.
  destruct (Refresh_past_guards c w s Hc Hok) as (s1 & Hc1 & _ & ->).
  destruct (Credentials_refresh_bound c st w s1 Hc1 Hst) as (s2 & Hrun).
  unfold try_except. rewrite Hrun. clear Hrun.
  destruct (storage_get w st) as [[]|stored]; [split; reflexivity|].
  destruct (usable_stored w c stored) as [n|]; [repeat split|].
  destruct (_do_refresh_request_bound c st w s1 Hst) as (s3 & ->).
  destruct (refresh w c) as [reason|c'].
  - destruct (refresh_error_in_body w c); [|split; reflexivity].
    destruct (storage_put w st (Some (flagged_invalid c)));
      split; reflexivity.
  - destruct (storage_put w st (Some (refreshed c c'))); split; reflexivity.
Qed.

(** [Refresh] raises RefreshError in the three cases only. *)
Lemma Refresh_RefreshError_only w s msg :
  result (Refresh w s) = inl (RefreshError msg) ->
  credentials (self s) = None \/
  (exists c, credentials (self s) = Some c /\ refresh_token c = None /\
             auth_method (self s) <> Some "service") \/
  (exists c reason, credentials (self s) = Some c /\
                    refresh w c = inl reason).
Proof.
  intros Hr.
  destruct (credentials (self s)) as [c|] eqn:Hc; [|left; reflexivity].
  right.
  destruct (decide (refresh_token c = None)) as [Hrt|Hrt];
    [destruct (decide (auth_method (self s) = Some "service")) as [Ham|Ham]|].
  2:{ left. exists c. repeat split; assumption. }
  all: right; exists c.
  all: assert (Hok : refresh_token c <> None \/
                     auth_method (self s) = Some "service") by tauto.
  all: destruct (store c) as [st|] eqn:Hst.
  all: try (pose proof (Refresh_bound_run c st w s Hc Hst Hok) as H;
            cbv zeta in H;
            destruct (storage_get w st) as [[]|stored];
            [destruct H as [_ H]; congruence|];
            destruct (usable_stored w c stored) as [n|];
            [destruct H as (_ & H & _); congruence|];
            destruct (refresh w c) as [reason|c'];
            [exists reason; split; reflexivity|];
            destruct H as [_ H];
            destruct (storage_put w st (Some (refreshed c c')));
            congruence).
  all: destruct (Refresh_unbound_run c w s Hc Hst Hok) as [_ H];
       destruct (refresh w c) as [reason|c'];
       [exists reason; split; reflexivity | congruence].
Qed.

(** C2 (amended).  [Refresh] raises RefreshError, and makes no call, when
    no credential is held, or the credential has no refresh token while
    [auth_method] is not ["service"]; and it raises RefreshError in these
    two cases and after a rejection by the remote only.  Past the two
    guards it calls the credential's [refresh] once.  For a credential
    bound to no store that is one token request: [Refresh] raises
    RefreshError, carrying the remote's reason, exactly when the remote
    rejects, and returns otherwise.  For a credential bound to a store the
    library reads the store first.  A failing read is an OSError that
    [Refresh] lets through.  A usable stored credential is taken over and
    the remote is not asked.  Otherwise the remote is asked; the refreshed
    credential, or the credential flagged invalid after a rejection that
    names an error, is written to the store, and a failing write is an
    OSError that [Refresh] lets through, even after a rejection. *)
Theorem Refresh_raises_RefreshError_iff (w : world) (s : state) :
  let o := Refresh w s in
  let no_credential := credentials (self s) = None in
  let no_refresh_token :=
    exists c, credentials (self s) = Some c /\ refresh_token c = None /\
              auth_method (self s) <> Some "service" in
  let rejected :=
    exists c reason, credentials (self s) = Some c /\
                     refresh w c = inl reason in
  (no_credential \/ no_refresh_token ->
     (exists msg, result o = inl (RefreshError msg)) /\ trace o = []) /\
  ((exists msg, result o = inl (RefreshError msg)) ->
     no_credential \/ no_refresh_token \/ rejected) /\
  (unbound s ->
     ((exists msg, result o = inl (RefreshError msg)) <->
        no_credential \/ no_refresh_token \/ rejected) /\
     (~ (no_credential \/ no_refresh_token) ->
        trace o = [TokenRefresh] /\
        forall c, credentials (self s) = Some c ->
          result o =
            match refresh w c with
            | inl reason =>
                inl (RefreshError
                       ("Access token refresh failed: " +:+ reason))
            | inr _ => inr tt
            end)) /\
  (forall c st,
     credentials (self s) = Some c -> store c = Some st ->
     ~ no_refresh_token ->
     match storage_get w st with
     | inl _ => trace o = [StorageLockedGet st] /\ result o = inl OSError
     | inr stored =>
         match usable_stored w c stored with
         | Some n =>
             trace o = [StorageLockedGet st] /\ result o = inr tt /\
             credentials (self (final o)) = Some (_updateFromCredential n c)
         | None =>
             match refresh w c with
             | inr c' =>
                 trace o = [StorageLockedGet st; TokenRefresh;
                            StorageLockedPut st (Some (refreshed c c'))] /\
                 result o = (if storage_put w st (Some (refreshed c c'))
                             then inr tt else inl OSError)
             | inl reason =>
                 if refresh_error_in_body w c then
                   trace o = [StorageLockedGet st; TokenRefresh;
                              StorageLockedPut st
                                (Some (flagged_invalid c))] /\
                   result o
                   = (if storage_put w st (Some (flagged_invalid c))
                      then inl (RefreshError
                                  ("Access token refresh failed: "
                                   +:+ reason))
                      else inl OSError)
                 else
                   trace o = [StorageLockedGet st; TokenRefresh] /\
                   result o
                   = inl (RefreshError
                            ("Access token refresh failed: " +:+ reason))
             end
         end
     end).
Proof.
  cbv zeta.
  split; [exact (Refresh_guarded w s)|].
  split; [intros [msg Hr]; exact (Refresh_RefreshError_only w s msg Hr)|].
  split.
  - intros Hun. split.
    + split; [intros [msg Hr]; exact (Refresh_RefreshError_only w s msg Hr)|].
      intros [H|[H|(c & reason & Hc & Hrej)]].
      * apply (Refresh_guarded w s). left. exact H.
      * apply (Refresh_guarded w s). right. exact H.
      * destruct (decide (refresh_token c = None)) as [Hrt|Hrt];
          [destruct (decide (auth_method (self s) = Some "service"))
             as [Ham|Ham]|].
        2:{ apply (Refresh_guarded w s). right. exists c.
            repeat split; assumption. }
        all: assert (Hok : refresh_token c <> None \/
                           auth_method (self s) = Some "service") by tauto.
        all: destruct (Refresh_unbound_run c w s Hc (Hun c Hc) Hok)
               as [_ Hr].
        all: rewrite Hrej in Hr; eexists; exact Hr.
    + intros Hno.
      destruct (credentials (self s)) as [c|] eqn:Hc;
        [|exfalso; apply Hno; left; reflexivity].
      pose proof (proj2 (past_guards_iff c s Hc)) as Hok.
      rewrite Hc in Hok. specialize (Hok Hno).
      destruct (Refresh_unbound_run c w s Hc (Hun c Hc) Hok)
        as [Ht Hr].
      split; [exact Ht|]. intros c0 [= <-]. exact Hr.
  - intros c st Hc Hst Hno.
    apply (Refresh_bound_run c st w s Hc Hst).
    destruct (decide (refresh_token c = None)) as [Hrt|Hrt];
      [|left; exact Hrt].
    destruct (decide (auth_method (self s) = Some "service")) as [Ham|Ham];
      [right; exact Ham|].
    exfalso. apply Hno. exists c. repeat split; assumption.
Qed.

Lemma Refresh_raises_RefreshError_iff_witness :
  let w := sample_world 1000 (fun _ _ => true) ∅
             (fun _ => inl "invalid_grant") (fun _ => inl "no file") in
  let s := holding (cred (Some "1//rt") 999) DEFAULT_SETTINGS in
  unbound s /\
  trace (Refresh w s) = [TokenRefresh] /\
  result (Refresh w s)
  = inl (RefreshError "Access token refresh failed: invalid_grant").
Proof.
  cbv zeta.
  assert (Hun : unbound (holding (cred (Some "1//rt") 999) DEFAULT_SETTINGS)).
  { intros c [= <-]. reflexivity. }
  split; [exact Hun|].
  destruct (Refresh_raises_RefreshError_iff
              (sample_world 1000 (fun _ _ => true) ∅
                 (fun _ => inl "invalid_grant") (fun _ => inl "no file"))
              (holding (cred (Some "1//rt") 999) DEFAULT_SETTINGS))
    as (_ & _ & H & _).
  destruct (H Hun) as [_ H']. destruct H' as [Ht Hr].
  { intros [H0|(c & H0 & Hrt & _)]; [discriminate H0|].
    injection H0 as <-. discriminate Hrt. }
  split; [exact Ht | exact (Hr _ eq_refl)].
Defined.

(** C2, as stated, fails for a credential bound to a store, as every
    credential is that was loaded from one.  The instance below loaded an
    expired credential from the file store; none of the three conditions
    holds and the remote would accept a refresh.  If the store by then
    holds a newer credential, [Refresh] takes that one and performs no
    network refresh.  If the store cannot be written, [Refresh] performs
    the network refresh and then raises OSError. *)
Lemma Refresh_bound_store_counterexample :
  let st := FileStorage (VStr "credentials.json") in
  let old := cred (Some "1//rt") 999 in
  let newer :=
    mkCredentials "ya29.newer" (Some "1//rt") 5000 drive_scope false None
                  None in
  let loading := with_store world0 (fun _ => inr (Some old))
                   (fun _ _ => true) in
  let s := final (LoadCredentialsFile (VStr "credentials.json") loading
                    (fresh DEFAULT_SETTINGS)) in
  let renewed := with_store world0 (fun _ => inr (Some newer))
                   (fun _ _ => true) in
  let read_only := with_store world0 (fun _ => inr (Some old))
                     (fun _ _ => false) in
  credentials (self s) = Some (set_store (Some st) old) /\
  refresh_token (set_store (Some st) old) <> None /\
  (exists c', refresh world0 (set_store (Some st) old) = inr c') /\
  (result (Refresh renewed s) = inr tt /\
   trace (Refresh renewed s) = [StorageLockedGet st]) /\
  (result (Refresh read_only s) = inl OSError /\
   trace (Refresh read_only s)
   = [StorageLockedGet st; TokenRefresh;
      StorageLockedPut st
        (Some (set_store (Some st) (cred (Some "1//rt") 9000)))]).
Proof.
  cbv zeta. split; [reflexivity|]. split; [discriminate|].
  split; [eexists; reflexivity|]. split; split; reflexivity.
Qed.

Example Refresh_no_credential :
  let o := Refresh world0 (fresh DEFAULT_SETTINGS) in
  result o = inl (RefreshError "No credential to refresh.") /\ trace o = [].
Proof. vm_compute. split; reflexivity. Qed.

Example Refresh_no_refresh_token :
  let o := Refresh world0 (holding (cred None 999) DEFAULT_SETTINGS) in
  result o =
    inl (RefreshError
      "No refresh_token found.Please set access_type of OAuth to offline.") /\
  trace o = [].
Proof. vm_compute. split; reflexivity. Qed.

Example Refresh_service_account_without_refresh_token :
  let s := on_self (with_auth_method (Some "service"))
             (holding (cred None 999) DEFAULT_SETTINGS) in
  let o := Refresh world0 s in
  result o = inr tt /\ trace o = [TokenRefresh] /\
  credentials (self (final o)) = Some (cred None 9000).
Proof. vm_compute. repeat split. Qed.

Example Refresh_rejected :
  let w := sample_world 1000 (fun _ _ => true) ∅
             (fun _ => inl "invalid_grant") (fun _ => inl "no file") in
  let o := Refresh w (holding (cred (Some "1//rt") 999) DEFAULT_SETTINGS) in
  result o =
    inl (RefreshError "Access token refresh failed: invalid_grant") /\
  trace o = [TokenRefresh] /\
  option_map invalid (credentials (self (final o))) = Some true.
Proof. vm_compute. repeat split. Qed.

(** A read of the store that fails stops [Refresh] with that OSError. *)
Example Refresh_store_unreadable :
  let st := FileStorage (VStr "credentials.json") in
  let w := with_store world0 (fun _ => inl tt) (fun _ _ => true) in
  let s := holding (set_store (Some st) (cred (Some "1//rt") 999))
             unsaved_file_settings in
  result (Refresh w s) = inl OSError /\
  trace (Refresh w s) = [StorageLockedGet st].
Proof. vm_compute. split; reflexivity. Qed.

(* ===================================================================== *)
(** * The local web server variant *)









Lemma flow_update_run g w s f :
  flow (self s) = Some f ->
  flow_update g w s =
    mkOutcome [] (on_self (with_flow (Some (g f))) s) (inr tt).
Proof. intros Hf. unfold flow_update. run. rewrite Hf. reflexivity. Qed.





Example LocalWebserverAuth_body_access_denied :
  let w := sample_world 1000 (fun _ _ => true)
             (<["error" := "access_denied"]> ∅)
             (fun c => inr c) (fun _ => inl "no file") in
  result (LocalWebserverAuth_body "localhost" None true VNone w
            (with_flow0 DEFAULT_SETTINGS))
  = inl (AuthenticationRejected "User rejected authentication").
Proof. vm_compute. reflexivity. Qed.

Example LocalWebserverAuth_body_error_wins_over_code :
  let w := sample_world 1000 (fun _ _ => true)
             (<["error" := "access_denied"]> (<["code" := "abc123"]> ∅))
             (fun c => inr c) (fun _ => inl "no file") in
  result (LocalWebserverAuth_body "localhost" None true VNone w
            (with_flow0 DEFAULT_SETTINGS))
  = inl (AuthenticationRejected "User rejected authentication").
Proof. vm_compute. reflexivity. Qed.

Example LocalWebserverAuth_body_second_port :
  let w := sample_world 1000 (fun _ p => p =? 8090)
             (<["code" := "abc123"]> ∅)
             (fun c => inr c) (fun _ => inl "no file") in
  let o := LocalWebserverAuth_body "localhost" None false VNone w
             (with_flow0 DEFAULT_SETTINGS) in
  result o = inr (VStr "abc123") /\
  option_map flow_redirect_uri (flow (self (final o)))
  = Some (VStr "http://localhost:8090/").
Proof. vm_compute. split; reflexivity. Qed.

Example LocalWebserverAuth_body_no_port :
  let w := sample_world 1000 (fun _ _ => false)
             (<["code" := "abc123"]> ∅)
             (fun c => inr c) (fun _ => inl "no file") in
  let o := LocalWebserverAuth_body "localhost" None true VNone w
             (with_flow0 DEFAULT_SETTINGS) in
  result o = inl (AuthenticationError EmptyString) /\
  requests_served (trace o) = 0%nat.
Proof. vm_compute. split; reflexivity. Qed.

(** Through the decorator the code is not returned to the caller but
    handed to [Auth]: the public method exchanges it and authorizes. *)
Example LocalWebserverAuth_exchanges_the_code :
  let o := LocalWebserverAuth "localhost" None true VNone world0
             (fresh DEFAULT_SETTINGS) in
  result o = inr tt /\
  In (CodeExchange (VStr "abc123")) (trace o) /\
  credentials (self (final o)) = Some (cred (Some "1//rt") 5000).
Proof. vm_compute. split; [reflexivity|]. split; [|reflexivity]. tauto. Qed.

(* ===================================================================== *)
(** * The device variant *)

Lemma scopes_to_string_run v w s :
  scopes_to_string v w s =
    mkOutcome [] s (match join_scopes v with
                    | Some sc => inr (VStr sc)
                    | None => inl TypeError
                    end).
Proof. unfold scopes_to_string. destruct (join_scopes v); reflexivity. Qed.

Lemma scopes_to_string_never_None v w s x :
  result (scopes_to_string v w s) = inr x -> x <> VNone.
Proof.
  rewrite scopes_to_string_run. simpl.
  destruct (join_scopes v); intros [= <-]; discriminate.
Qed.



Lemma InvalidConfigError_not_AuthError msg :
  is_AuthError (InvalidConfigError msg) = false.
Proof. reflexivity. Qed.


Lemma and_then_inr {A B} (r : exn + A) (k : A -> exn + B) b :
  and_then r k = inr b -> exists a, r = inr a /\ k a = inr b.
Proof. destruct r as [e|a]; [discriminate|]. intros H. exists a. auto. Qed.





(** The settings of a constructed instance are validated ones. *)
Lemma new_GoogleAuth_validated timeout st g :
  new_GoogleAuth timeout st = inr g -> validated (settings g).
Proof.
  unfold new_GoogleAuth. intros H.
  apply and_then_inr in H as (st' & Hv & H).
  apply and_then_inr in H as (r & _ & H). injection H as <-.
  eexists. exact Hv.
Qed.

Lemma fresh_validated st : validated (settings (self (fresh st))).
Proof.
  unfold fresh. cbn [self].
  destruct (new_GoogleAuth VNone st) as [e|g] eqn:Hg.
  - exists DEFAULT_SETTINGS. reflexivity.
  - exact (new_GoogleAuth_validated _ _ _ Hg).
Qed.



Example DeviceAuth_body_client_id_missing_default :
  let o := DeviceAuth_body world0 (with_flow0 DEFAULT_SETTINGS) in
  result o =
    inl (InvalidConfigError "client_id is required for Device Authentication")
  /\ trace o = [].
Proof. vm_compute. split; reflexivity. Qed.

(** Through the decorator, an unreadable client secrets file stops
    [DeviceAuth] in [GetFlow], again before any network call. *)
Example DeviceAuth_unresolvable_client_config :
  let w := sample_world 1000 (fun _ _ => true) ∅ (fun c => inr c)
             (fun _ => inl "Error opening file") in
  let o := DeviceAuth w (fresh DEFAULT_SETTINGS) in
  result o =
    inl (InvalidConfigError
           "Invalid client secrets file Error opening file") /\
  trace o = [ClientSecretsRead (VStr "client_secrets.json")].
Proof. vm_compute. split; reflexivity. Qed.

(** Settings given without [oauth_scope] hold the default scope once the
    constructor has run. *)
Example constructor_writes_default_scope :
  dict_get (settings (self (fresh settings_without_scope))) "oauth_scope"
  = VList [VStr drive_scope].
Proof. vm_compute. reflexivity. Qed.

(** The second guard of the variant cannot fire, whatever the state:
    [scopes_to_string] answers a string or raises. *)
Lemma DeviceAuth_body_scope_guard_dead (w : world) (s : state) :
  result (DeviceAuth_body w s)
  <> inl (InvalidConfigError
            "oauth_scope is required for Device Authentication").
Proof.
  unfold DeviceAuth_body. rewrite bind_gets.
  destruct (flow (self s)) as [f|] eqn:Hf.
  2:{ unfold flow_update at 1. rewrite bind_assoc, bind_gets, Hf.
      discriminate. }
  rewrite (bind_run _ _ _ _ _ _ _ (flow_update_run _ w s f Hf)), extend_nil.
  rewrite bind_gets. unfold bind at 1. rewrite scopes_to_string_run.
  destruct (join_scopes _) as [sc|]; [|discriminate].
  rewrite extend_nil.
  match goal with |- context [bind (flow_update ?g) ?k w ?s'] =>
    rewrite (bind_run _ _ _ _ _ _ _ (flow_update_run g w s' _ eq_refl)) end.
  rewrite extend_nil, bind_gets. cbn [attr_of on_self self flow with_flow].
  rewrite bind_ret.
  cbn [flow_client_id flow_scope flow_set_scope flow_set_client_id is_None].
  destruct (is_None (dict_get (client_config (self s)) "client_id"));
    [discriminate|].
  unfold GetDeviceCode. run_flat.
  rewrite bool_decide_eq_false_2 by discriminate. run_flat.
  match goal with |- context [requests_post w ?u ?d] =>
    destruct (requests_post w u d) as [code body] end.
  cbn [fst snd]. destruct (negb (code =? 200)); run_flat; [discriminate|].
  unfold subscript, dict_item, fromtimestamp_div_1e3.
  destruct body; run_flat; try discriminate.
  repeat (match goal with
          | |- context [match ?d !! ?k with _ => _ end] =>
              destruct (d !! k); run_flat; try discriminate
          | |- context [match ?v with VNone => _ | _ => _ end] =>
              destruct v; run_flat; try discriminate
          | |- context [from_json w ?j] =>
              destruct (from_json w j); run_flat; try discriminate
          end).
Qed.

(* ===================================================================== *)
(** * Loading the service configuration *)

Lemma first_service_config_run sc configs w s :
  settings (self s) !! "service_config" = Some (VDict sc) ->
  first_service_config configs w s =
    match first_configured sc configs with
    | Some k => mkOutcome [] (put_client_config k (dict_get sc k) s) (inr k)
    | None => mkOutcome [] s (inl (InvalidConfigError service_config_required))
    end.
Proof.
  intros Hsc. induction configs as [|c configs IH]; [reflexivity|].
  cbn [first_service_config]. run. unfold dict_item. rewrite Hsc. run.
  unfold method_get, client_config_set. run.
  unfold first_configured. cbn [find].
  destruct (truthy (dict_get sc c)) eqn:Ht; run.
  - reflexivity.
  - rewrite IH. unfold first_configured.
    destruct (find _ configs); reflexivity.
Qed.

Lemma load_required_service_config_run sc config w s :
  settings (self s) !! "service_config" = Some (VDict sc) ->
  load_required_service_config config w s =
    match sc !! config with
    | Some v => mkOutcome [] (put_client_config config v s) (inr tt)
    | None =>
        mkOutcome [] s
          (inl (InvalidConfigError
                  ("Insufficient service config in settings" +:+ nl +:+ nl
                   +:+ "Missing: " +:+ config +:+ " key.")))
    end.
Proof.
  intros Hsc. unfold load_required_service_config. run_try.
  unfold dict_item at 1. rewrite Hsc. run.
  unfold client_config_set, subscript, dict_item.
  destruct (sc !! config); run; reflexivity.
Qed.

(** The second loop logs nothing and changes [client_config] only, and
    there only at the keys it iterates over. *)
Lemma load_required_loop sc l w s :
  settings (self s) !! "service_config" = Some (VDict sc) ->
  exists s1 r,
    for_each l load_required_service_config w s = mkOutcome [] s1 r /\
    SERVICE_CONFIGS_LIST s1 = SERVICE_CONFIGS_LIST s /\
    settings (self s1) = settings (self s) /\
    credentials (self s1) = credentials (self s) /\
    (forall k, ~ In k l ->
       client_config (self s1) !! k = client_config (self s) !! k) /\
    (Forall (fun k => is_Some (sc !! k)) l -> r = inr tt).
Proof.
  revert s. induction l as [|c l IH]; intros s Hsc.
  - exists s, (inr tt). repeat split.
  - cbn [for_each]. unfold bind.
    rewrite (load_required_service_config_run sc c w s Hsc).
    destruct (sc !! c) as [v|] eqn:Hv.
    + destruct (IH (put_client_config c v s) Hsc)
        as (s1 & r & -> & Hl & Hs & Hc & Hk & Hr).
      exists s1, r. repeat split; try assumption.
      * intros k Hin. rewrite Hk by (intros H; apply Hin; right; exact H).
        cbn [put_client_config on_self self client_config with_client_config].
        apply lookup_insert_ne. intros ->. apply Hin. left; reflexivity.
      * intros Hall. apply Hr. inversion Hall; assumption.
    + eexists _, _. repeat split.
      intros Hall. inversion Hall as [|? ? [v' Hv'] ?]; subst. congruence.
Qed.

Lemma LoadServiceConfigSettings_selected sc k w s :
  settings (self s) !! "service_config" = Some (VDict sc) ->
  first_configured sc service_configs = Some k ->
  exists s1 r,
    LoadServiceConfigSettings w s = mkOutcome [] s1 r /\
    SERVICE_CONFIGS_LIST s1 =
      (SERVICE_CONFIGS_LIST s ++
       if String.eqb k "client_pkcs12_file_path"
       then ["client_service_email"] else [])%list /\
    settings (self s1) = settings (self s) /\
    credentials (self s1) = credentials (self s) /\
    (forall k', ~ In k' (SERVICE_CONFIGS_LIST s1) ->
       client_config (self s1) !! k' =
       (<[k := dict_get sc k]> (client_config (self s))) !! k') /\
    (Forall (fun k => is_Some (sc !! k)) (SERVICE_CONFIGS_LIST s1) ->
     r = inr tt).
Proof.
  intros Hsc Hk. unfold LoadServiceConfigSettings.
  pose proof (first_service_config_run sc service_configs w s Hsc) as H1.
  rewrite Hk in H1. rewrite (bind_run _ _ _ _ _ _ _ H1). clear H1.
  destruct (String.eqb k "client_pkcs12_file_path"); run;
    match goal with |- context [for_each ?l _ w ?s'] =>
      destruct (load_required_loop sc l w s' Hsc)
        as (s1 & r & -> & Hl & Hs & Hc & Hcc & Hr)
    end;
    cbn [put_client_config on_self self SERVICE_CONFIGS_LIST settings
         credentials client_config with_client_config] in Hl, Hs, Hc, Hcc;
    exists s1, r; rewrite ?app_nil_r;
    (refine (conj eq_refl (conj Hl (conj Hs (conj Hc (conj _ _)))));
     [ intros k' Hin; apply Hcc; rewrite <- Hl; exact Hin
     | intros Hall; apply Hr; rewrite Hl in Hall; exact Hall ]).
Qed.

Lemma selects_pkcs12_first st :
  selects_pkcs12 st ->
  exists sc, st !! "service_config" = Some (VDict sc) /\
             first_configured sc service_configs
             = Some "client_pkcs12_file_path".
Proof.
  intros (sc & Hsc & H1 & H2 & H3 & H4). exists sc. split; [exact Hsc|].
  unfold first_configured, service_configs. cbn [find].
  rewrite H1, H2, H3, H4. reflexivity.
Qed.

(** C9.  When the settings select the PKCS12 variant,
    [LoadServiceConfigSettings] appends "client_service_email" to the
    class-level [SERVICE_CONFIGS_LIST], whether or not it then succeeds:
    one call grows the list by one element, a second call by one more, and
    any other instance of the class sees the grown list. *)
Theorem LoadServiceConfigSettings_grows_class_list (w : world) (s : state) :
  selects_pkcs12 (settings (self s)) ->
  let o1 := LoadServiceConfigSettings w s in
  let o2 := LoadServiceConfigSettings w (final o1) in
  SERVICE_CONFIGS_LIST (final o1) =
    (SERVICE_CONFIGS_LIST s ++ ["client_service_email"])%list /\
  SERVICE_CONFIGS_LIST (final o2) =
    (SERVICE_CONFIGS_LIST s
       ++ ["client_service_email"; "client_service_email"])%list /\
  forall b : GoogleAuth,
    result (then_on_other LoadServiceConfigSettings get_class_list w
              (SERVICE_CONFIGS_LIST s) (self s) b)
    = inr (SERVICE_CONFIGS_LIST s ++ ["client_service_email"])%list.
Proof.
  intros Hsel. cbv zeta.
  destruct (selects_pkcs12_first _ Hsel) as (sc & Hsc & Hfirst).
  destruct (LoadServiceConfigSettings_selected sc _ w s Hsc Hfirst)
    as (s1 & r1 & E1 & Hl1 & Hs1 & _).
  cbn [String.eqb Ascii.eqb Bool.eqb] in Hl1.
  assert (Hsc1 : settings (self s1) !! "service_config" = Some (VDict sc))
    by (rewrite Hs1; exact Hsc).
  destruct (LoadServiceConfigSettings_selected sc _ w s1 Hsc1 Hfirst)
    as (s2 & r2 & E2 & Hl2 & _).
  cbn [String.eqb Ascii.eqb Bool.eqb] in Hl2.
  rewrite E1. cbn [final]. rewrite E2. cbn [final].
  split; [exact Hl1|]. split.
  - rewrite Hl2, Hl1, <- app_assoc. reflexivity.
  - intros b. unfold then_on_other. destruct s as [l a].
    cbn [SERVICE_CONFIGS_LIST self] in *.
    rewrite E1. cbn [final]. rewrite Hl1. reflexivity.
Qed.

Lemma LoadServiceConfigSettings_grows_class_list_witness :
  let s := fresh service_settings_p12 in
  let o1 := LoadServiceConfigSettings world0 s in
  let o2 := LoadServiceConfigSettings world0 (final o1) in
  selects_pkcs12 (settings (self s)) /\
  SERVICE_CONFIGS_LIST (final o1)
  = ["client_user_email"; "client_service_email"] /\
  SERVICE_CONFIGS_LIST (final o2)
  = ["client_user_email"; "client_service_email"; "client_service_email"].
Proof.
  cbv zeta.
  assert (Hsel : selects_pkcs12 (settings (self (fresh service_settings_p12)))).
  { eexists. split; [reflexivity|]. repeat split; reflexivity. }
  split; [exact Hsel|].
  destruct (LoadServiceConfigSettings_grows_class_list world0 _ Hsel)
    as (H1 & H2 & _).
  split; [exact H1 | exact H2].
Defined.

(** The leak at work: an instance configured with a key file authorizes on
    its own, but not after another instance has loaded a PKCS12
    configuration, because the shared list now also requires
    "client_service_email". *)
Example ServiceAuth_alone :
  result (ServiceAuth world0 (fresh service_settings_file)) = inr tt.
Proof. vm_compute. reflexivity. Qed.

Example ServiceAuth_after_other_instance_loaded_pkcs12 :
  result (then_on_other LoadServiceConfigSettings ServiceAuth world0
            SERVICE_CONFIGS_LIST_init
            (self (fresh service_settings_p12))
            (self (fresh service_settings_file)))
  = inl (InvalidConfigError
           ("Insufficient service config in settings" +:+ nl +:+ nl +:+
            "Missing: client_service_email key.")).
Proof. vm_compute. reflexivity. Qed.

(** The list grows even when the load itself fails for want of the
    service email. *)
Example LoadServiceConfigSettings_fails_and_still_appends :
  let st : gmap string pyval :=
    <["service_config" :=
        VDict (<["client_pkcs12_file_path" := VStr "key.p12"]>
              (<["client_user_email" := VStr "user@example.org"]> ∅))]> ∅ in
  let o := LoadServiceConfigSettings world0 (fresh st) in
  (exists msg, result o = inl (InvalidConfigError msg)) /\
  SERVICE_CONFIGS_LIST (final o)
  = ["client_user_email"; "client_service_email"].
Proof. vm_compute. split; [eexists; reflexivity | reflexivity]. Qed.

(* ===================================================================== *)
(** * Service-account key material *)


















(** In [ServiceAuth]'s own order the key JSON string comes before the key
    file path. *)
Example ServiceAuth_json_before_file :
  let o := ServiceAuth_body world_keys
             (configured client_config_json service_settings_both) in
  trace o = [KeyfileDict key_dict0] /\
  credentials (self (final o)) = Some (cred None 5000).
Proof. vm_compute. split; reflexivity. Qed.

Example ServiceAuth_p12_last :
  trace (ServiceAuth_body world0 (fresh service_settings_p12))
  = [P12Read (VStr "robot@project.example") (VStr "key.p12")].
Proof. vm_compute. reflexivity. Qed.

(* ===================================================================== *)
(** * The client secrets file *)

Lemma clientsecrets_loadfile_ok file x w s :
  loadfile w file = inr x ->
  clientsecrets_loadfile file w s
  = mkOutcome [ClientSecretsRead file] s (inr x).
Proof.
  intros H. unfold clientsecrets_loadfile. run. rewrite H. reflexivity.
Qed.

Lemma clientsecrets_loadfile_fail file msg w s :
  loadfile w file = inl msg ->
  clientsecrets_loadfile file w s
  = mkOutcome [ClientSecretsRead file] s
      (inl (InvalidClientSecretsError msg)).
Proof.
  intros H. unfold clientsecrets_loadfile. run. rewrite H. reflexivity.
Qed.

Lemma LoadClientConfigFile_loaded file ty info w s :
  is_None file = false ->
  loadfile w file = inr (ty, info) ->
  known_client_type ty = true ->
  LoadClientConfigFile file w s
  = extend [ClientSecretsRead file] (copy_client_info info w s).
Proof.
  intros Hfile Hload Hty.
  unfold LoadClientConfigFile. rewrite Hfile. run.
  erewrite bind_run
    by (eapply try_except_ok, clientsecrets_loadfile_ok; exact Hload).
  run. fold (known_client_type ty). rewrite Hty. cbn [negb].
  rewrite extend_nil. reflexivity.
Qed.

Lemma LoadClientConfigFile_invalid_file file msg w s :
  is_None file = false ->
  loadfile w file = inl msg ->
  result (LoadClientConfigFile file w s)
  = inl (InvalidConfigError ("Invalid client secrets file " +:+ msg)).
Proof.
  intros Hfile Hload.
  unfold LoadClientConfigFile. rewrite Hfile. run.
  erewrite bind_fail.
  2:{ erewrite try_except_caught;
        [|apply clientsecrets_loadfile_fail; exact Hload | reflexivity].
      run. reflexivity. }
  reflexivity.
Qed.

Lemma LoadClientConfigFile_unknown_type file ty info w s :
  is_None file = false ->
  loadfile w file = inr (ty, info) ->
  known_client_type ty = false ->
  result (LoadClientConfigFile file w s)
  = inl (InvalidConfigError "Unknown client_type of client config file").
Proof.
  intros Hfile Hload Hty.
  unfold LoadClientConfigFile. rewrite Hfile. run.
  erewrite bind_run
    by (eapply try_except_ok, clientsecrets_loadfile_ok; exact Hload).
  run. fold (known_client_type ty). rewrite Hty. reflexivity.
Qed.

Lemma copy_client_info_missing_field info k w s :
  In k required_client_fields -> info !! k = None ->
  result (copy_client_info info w s)
  = inl (InvalidConfigError "Insufficient client config in file").
Proof.
  intros Hin Hk. unfold copy_client_info, bind at 1, try_except at 1.
  cbn [for_each]. unfold client_config_set, dict_item. run_flat.
  destruct (info !! "client_id") eqn:H1; run_flat; [|reflexivity].
  destruct (info !! "client_secret") eqn:H2; run_flat; [|reflexivity].
  destruct (info !! "auth_uri") eqn:H3; run_flat; [|reflexivity].
  destruct (info !! "token_uri") eqn:H4; run_flat; [|reflexivity].
  destruct (info !! "redirect_uris") eqn:H5; run_flat; [|reflexivity].
  exfalso. simpl in Hin.
  destruct Hin as [<-|[<-|[<-|[<-|[<-|[]]]]]]; congruence.
Qed.

Lemma copy_client_info_complete info id secret auth token uri uris w s :
  info !! "client_id" = Some id ->
  info !! "client_secret" = Some secret ->
  info !! "auth_uri" = Some auth ->
  info !! "token_uri" = Some token ->
  info !! "redirect_uris" = Some (VList (uri :: uris)) ->
  exists s',
    copy_client_info info w s = mkOutcome [] s' (inr tt) /\
    client_config (self s') !! "redirect_uri" = Some uri /\
    client_config (self s') !! "revoke_uri"
    = Some (dict_get info "revoke_uri").
Proof.
  intros H1 H2 H3 H4 H5.
  destruct (info !! "client_email") eqn:H6; eexists; (split; [
    unfold copy_client_info, bind at 1, try_except at 1;
    cbn [for_each]; unfold client_config_set, dict_item; run_flat;
    rewrite H1; run_flat; rewrite H2; run_flat; rewrite H3; run_flat;
    rewrite H4; run_flat; rewrite H5; cbn [item0]; run_flat;
    unfold try_except; run_flat; rewrite H6; run_flat; reflexivity |]).
  - cbn [self on_self client_config with_client_config]. split.
    + rewrite lookup_insert_ne by discriminate. apply lookup_insert_eq.
    + do 2 (rewrite lookup_insert_ne by discriminate). apply lookup_insert_eq.
  - cbn [self on_self client_config with_client_config]. split.
    + apply lookup_insert_eq.
    + rewrite lookup_insert_ne by discriminate. apply lookup_insert_eq.
Qed.

Lemma copy_client_info_no_redirect_uri info id secret auth token w s :
  info !! "client_id" = Some id ->
  info !! "client_secret" = Some secret ->
  info !! "auth_uri" = Some auth ->
  info !! "token_uri" = Some token ->
  info !! "redirect_uris" = Some (VList []) ->
  let o := copy_client_info info w s in
  result o = inl IndexError /\ trace o = [].
Proof.
  intros H1 H2 H3 H4 H5. cbv zeta.
  unfold copy_client_info, bind at 1, try_except at 1.
  cbn [for_each]. unfold client_config_set, dict_item. run_flat.
  rewrite H1; run_flat. rewrite H2; run_flat. rewrite H3; run_flat.
  rewrite H4; run_flat. rewrite H5; cbn [item0]; run_flat.
  split; reflexivity.
Qed.

(** C8.  A client secrets file of a known type that has every required
    key but an empty [redirect_uris] list, hence no redirect URI at all:
    [client_info["redirect_uris"][0]] raises IndexError, which the
    [except KeyError] around it does not catch, so the loader does not
    raise InvalidConfigError. *)
Theorem LoadClientConfigFile_empty_redirect_uris (w : world) (s : state)
    (file ty : pyval) (info : gmap string pyval) :
  is_None file = false ->
  loadfile w file = inr (ty, info) ->
  known_client_type ty = true ->
  (forall k, In k ["client_id"; "client_secret"; "auth_uri"; "token_uri"] ->
             is_Some (info !! k)) ->
  info !! "redirect_uris" = Some (VList []) ->
  let o := LoadClientConfigFile file w s in
  result o = inl IndexError /\
  ~ (exists msg, result o = inl (InvalidConfigError msg)).
Proof.
  intros Hfile Hload Hty Hreq Hempty. cbv zeta.
  rewrite (LoadClientConfigFile_loaded file ty info w s Hfile Hload Hty).
  rewrite result_extend.
  destruct (Hreq "client_id") as [id H1]; [simpl; tauto|].
  destruct (Hreq "client_secret") as [secret H2]; [simpl; tauto|].
  destruct (Hreq "auth_uri") as [auth H3]; [simpl; tauto|].
  destruct (Hreq "token_uri") as [token H4]; [simpl; tauto|].
  destruct (copy_client_info_no_redirect_uri info _ _ _ _ w s
              H1 H2 H3 H4 Hempty) as [-> _].
  split; [reflexivity|]. intros [msg [=]].
Qed.

(** What does hold of the loader: an unknown client type, and a required
    key that is absent, raise InvalidConfigError; a file without
    [revoke_uri] and [client_email] loads. *)
Lemma LoadClientConfigFile_missing_field file ty info k w s :
  is_None file = false ->
  loadfile w file = inr (ty, info) ->
  known_client_type ty = true ->
  In k required_client_fields -> info !! k = None ->
  result (LoadClientConfigFile file w s)
  = inl (InvalidConfigError "Insufficient client config in file").
Proof.
  intros Hfile Hload Hty Hin Hk.
  rewrite (LoadClientConfigFile_loaded file ty info w s Hfile Hload Hty).
  rewrite result_extend.
  apply copy_client_info_missing_field with k; assumption.
Qed.

Lemma LoadClientConfigFile_optional_fields file ty info w s
    id secret auth token uri uris :
  is_None file = false ->
  loadfile w file = inr (ty, info) ->
  known_client_type ty = true ->
  info !! "client_id" = Some id ->
  info !! "client_secret" = Some secret ->
  info !! "auth_uri" = Some auth ->
  info !! "token_uri" = Some token ->
  info !! "redirect_uris" = Some (VList (uri :: uris)) ->
  info !! "revoke_uri" = None -> info !! "client_email" = None ->
  let o := LoadClientConfigFile file w s in
  result o = inr tt /\
  client_config (self (final o)) !! "revoke_uri" = Some VNone.
Proof.
  intros Hfile Hload Hty H1 H2 H3 H4 H5 Hrev _. cbv zeta.
  rewrite (LoadClientConfigFile_loaded file ty info w s Hfile Hload Hty).
  rewrite result_extend, final_extend.
  destruct (copy_client_info_complete info _ _ _ _ _ _ w s H1 H2 H3 H4 H5)
    as (s' & -> & _ & Hv).
  split; [reflexivity|]. cbn [final]. rewrite Hv.
  unfold dict_get. rewrite Hrev. reflexivity.
Qed.

Lemma LoadClientConfigFile_empty_redirect_uris_witness :
  let w := world_secrets "web" client_info_no_uri in
  let o := LoadClientConfigFile (VStr "client_secrets.json") w
             (fresh DEFAULT_SETTINGS) in
  loadfile w (VStr "client_secrets.json")
  = inr (VStr "web", client_info_no_uri) /\
  client_info_no_uri !! "redirect_uris" = Some (VList []) /\
  result o = inl IndexError.
Proof.
  cbv zeta. split; [reflexivity|]. split; [reflexivity|].
  refine (proj1 (LoadClientConfigFile_empty_redirect_uris
            (world_secrets "web" client_info_no_uri) (fresh DEFAULT_SETTINGS)
            (VStr "client_secrets.json") (VStr "web") client_info_no_uri
            eq_refl eq_refl eq_refl _ eq_refl)).
  intros k Hk. simpl in Hk.
  destruct Hk as [<-|[<-|[<-|[<-|[]]]]]; eexists; reflexivity.
Defined.

Example LoadClientConfigFile_missing_redirect_uris :
  result (LoadClientConfigFile VNone
            (world_secrets "installed" (delete "redirect_uris" client_info_ok))
            (fresh DEFAULT_SETTINGS))
  = inl (InvalidConfigError "Insufficient client config in file").
Proof. vm_compute. reflexivity. Qed.

Example LoadClientConfigFile_service_account_type :
  result (LoadClientConfigFile VNone
            (world_secrets "service_account" client_info_ok)
            (fresh DEFAULT_SETTINGS))
  = inl (InvalidConfigError "Unknown client_type of client config file").
Proof. vm_compute. reflexivity. Qed.

Example LoadClientConfigFile_without_optional_fields :
  let o := LoadClientConfigFile VNone (world_secrets "web" client_info_ok)
             (fresh DEFAULT_SETTINGS) in
  result o = inr tt /\
  client_config (self (final o)) !! "revoke_uri" = Some VNone /\
  client_config (self (final o)) !! "client_email" = None /\
  client_config (self (final o)) !! "redirect_uri"
  = Some (VStr "http://localhost").
Proof. vm_compute. repeat split. Qed.

(** Through [LocalWebserverAuth] on a fresh instance the same file
    surfaces as IndexError as well. *)
Example LocalWebserverAuth_empty_redirect_uris :
  result (LocalWebserverAuth "localhost" None true VNone
            (world_secrets "web" client_info_no_uri) (fresh DEFAULT_SETTINGS))
  = inl IndexError.
Proof. vm_compute. reflexivity. Qed.


(* ===================================================================== *)
(** * Saving without a credential *)

Lemma SaveCredentials_resolved backend w s :
  SaveCredentials backend w s =
    let b := resolved_backend backend s in
    if is_None b then
      mkOutcome [] s
        (inl (InvalidConfigError "Please specify credential backend"))
    else if eq_str b "file" then SaveCredentialsFile VNone w s
    else if eq_str b "dictionary" then _SaveCredentialsDictionary w s
    else if eq_str b "redis" then SaveCredentialsRedis w s
    else mkOutcome [] s
           (inl (InvalidConfigError "Unknown save_credentials_backend")).
Proof.
  unfold SaveCredentials, resolved_backend. cbv zeta.
  destruct (is_None backend) eqn:Hb.
  - rewrite bind_assoc. run.
    destruct (is_None (dict_get (settings (self s))
                         "save_credentials_backend")); run;
      [reflexivity|].
    rewrite !extend_nil.
    repeat (match goal with |- context [if ?b then _ else _] =>
              destruct b end; try reflexivity).
  - run. rewrite Hb, !extend_nil.
    repeat (match goal with |- context [if ?b then _ else _] =>
              destruct b end; try reflexivity).
Qed.

Lemma eq_str_not_None v k : eq_str v k = true -> is_None v = false.
Proof. destruct v; simpl; congruence. Qed.

Lemma eq_str_inj v k k' : eq_str v k = true -> k <> k' -> eq_str v k' = false.
Proof.
  destruct v; simpl; try discriminate. intros H Hne.
  apply String.eqb_eq in H. subst. apply String.eqb_neq. exact Hne.
Qed.

(** C10.  With no credential held, [SaveCredentials] raises
    InvalidCredentialsError("No credentials to save"), without touching a
    store, when the resolved backend is "file" or "dictionary"; when it is
    "redis" (and a redis store is configured) there is no such check: [put]
    is called on the store with None, and what [SaveCredentials] returns
    or raises is what that call does. *)
Theorem SaveCredentials_no_credential (w : world) (s : state)
    (backend : pyval) :
  credentials (self s) = None ->
  let b := resolved_backend backend s in
  let o := SaveCredentials backend w s in
  (eq_str b "file" = true \/ eq_str b "dictionary" = true ->
     result o = inl (InvalidCredentialsError "No credentials to save") /\
     trace o = []) /\
  (eq_str b "redis" = true ->
   forall st, _storages (self s) !! "redis" = Some (Some st) ->
     trace o = [StoragePut st None] /\
     result o = (if storage_put w st None then inr tt else inl OSError) /\
     result o <> inl (InvalidCredentialsError "No credentials to save")).
Proof.
  intros Hc. cbv zeta. rewrite SaveCredentials_resolved. cbv zeta.
  set (b := resolved_backend backend s). split.
  - intros [Hb|Hb]; rewrite (eq_str_not_None _ _ Hb).
    + rewrite Hb. unfold SaveCredentialsFile. run. rewrite Hc.
      split; reflexivity.
    + rewrite (eq_str_inj _ _ "file" Hb) by discriminate. rewrite Hb.
      unfold _SaveCredentialsDictionary. run. rewrite Hc.
      split; reflexivity.
  - intros Hb st Hst. rewrite (eq_str_not_None _ _ Hb).
    rewrite (eq_str_inj _ _ "file" Hb) by discriminate.
    rewrite (eq_str_inj _ _ "dictionary" Hb) by discriminate. rewrite Hb.
    unfold SaveCredentialsRedis, storages_item, Storage_put. run_flat.
    rewrite Hst. run_flat. rewrite Hc.
    destruct (storage_put w st None); run_flat;
      (split; [reflexivity | split; [reflexivity | discriminate]]).
Qed.

Lemma SaveCredentials_no_credential_witness :
  let st := RedisStorage (VStr "127.0.0.1") (VInt 6379)
              (VStr "gdrive-credentials") in
  credentials (self (fresh redis_settings)) = None /\
  result (SaveCredentials VNone world0 (fresh file_settings))
  = inl (InvalidCredentialsError "No credentials to save") /\
  result (SaveCredentials VNone world0 (fresh dictionary_settings))
  = inl (InvalidCredentialsError "No credentials to save") /\
  trace (SaveCredentials VNone world0 (fresh redis_settings))
  = [StoragePut st None] /\
  result (SaveCredentials VNone world0 (fresh redis_settings)) = inr tt.
Proof.
  cbv zeta. split; [reflexivity|].
  split; [|split; [|split]].
  - refine (proj1 (proj1 (SaveCredentials_no_credential world0
              (fresh file_settings) VNone eq_refl) (or_introl eq_refl))).
  - refine (proj1 (proj1 (SaveCredentials_no_credential world0
              (fresh dictionary_settings) VNone eq_refl) (or_intror eq_refl))).
  - refine (proj1 (proj2 (SaveCredentials_no_credential world0
              (fresh redis_settings) VNone eq_refl) eq_refl _ eq_refl)).
  - refine (proj1 (proj2 (proj2 (SaveCredentials_no_credential world0
              (fresh redis_settings) VNone eq_refl) eq_refl _ eq_refl))).
Defined.

(** Asked for the redis backend on an instance configured for another
    one, [SaveCredentialsRedis] finds no entry in [self._storages]. *)
Example SaveCredentials_redis_not_configured :
  result (SaveCredentials (VStr "redis") world0 (fresh file_settings))
  = inl (KeyError "redis").
Proof. vm_compute. reflexivity. Qed.


(* ===================================================================== *)
(** * Authorization without persistence *)

Lemma not_storage_refresh_access oc e :
  not_storage e -> refresh_access oc e.
Proof. destruct e; cbn; intros H; try discriminate H; exact I. Qed.

Lemma refresh_access_unbound oc e :
  (forall c, oc = Some c -> store c = None) ->
  refresh_access oc e -> not_storage e.
Proof.
  intros Hun. destruct e; cbn; try reflexivity; try contradiction.
  all: intros (c0 & Hc & Hst); rewrite (Hun c0 Hc) in Hst; discriminate.
Qed.

Lemma quiet_refresh_access {A} (m : M A) oc w s :
  quiet m -> Forall (refresh_access oc) (trace (m w s)).
Proof.
  intros Hq. eapply Forall_impl; [exact (proj2 (Hq w s))|].
  intros e. apply not_storage_refresh_access.
Qed.

(** The library's refresh touches no store but the one the credential is
    bound to, and never through [get] or [put]. *)
Lemma Credentials_refresh_access w s :
  Forall (refresh_access (credentials (self s)))
    (trace (Credentials_refresh w s)).
Proof.
  destruct (credentials (self s)) as [c|] eqn:Hc.
  2:{ unfold Credentials_refresh. rewrite bind_gets, Hc. constructor. }
  destruct (store c) as [st|] eqn:Hst.
  - assert (Hb : forall e, refresh_access (Some c) (StorageLockedPut st e)).
    { intros e. exists c. split; [reflexivity | exact Hst]. }
    assert (Hg : refresh_access (Some c) (StorageLockedGet st)).
    { exists c. split; [reflexivity | exact Hst]. }
    destruct (Credentials_refresh_bound c st w s Hc Hst) as (s1 & ->).
    destruct (storage_get w st) as [[]|stored]; [repeat constructor; exact Hg|].
    destruct (usable_stored w c stored) as [n|];
      [repeat constructor; exact Hg|].
    destruct (_do_refresh_request_bound c st w s Hst) as (s2 & ->).
    destruct (refresh w c) as [reason|c'];
      [destruct (refresh_error_in_body w c)|];
      cbn [extend trace app]; repeat constructor; auto.
  - destruct (Credentials_refresh_unbound c w s Hc Hst) as (s1 & ->).
    repeat constructor.
Qed.

Lemma Refresh_access w s :
  Forall (refresh_access (credentials (self s))) (trace (Refresh w s)).
Proof.
  destruct (credentials (self s)) as [c|] eqn:Hc.
  2:{ rewrite (proj2 (Refresh_guarded w s (or_introl Hc))). constructor. }
  destruct (decide (refresh_token c = None)) as [Hrt|Hrt];
    [destruct (decide (auth_method (self s) = Some "service")) as [Ham|Ham]|].
  2:{ rewrite (proj2 (Refresh_guarded w s
                 (or_intror (ex_intro _ c (conj Hc (conj Hrt Ham)))))).
      constructor. }
  all: assert (Hok : refresh_token c <> None \/
                     auth_method (self s) = Some "service") by tauto.
  all: destruct (Refresh_past_guards c w s Hc Hok) as (s1 & Hc1 & _ & ->).
  all: rewrite trace_try_except_raise, <- Hc1.
  all: apply Credentials_refresh_access.
Qed.

(** The two decorators with persistence off.  Neither calls [get] or
    [put]; a store is touched only by the refresh of the credential held at
    entry, and then it is the store that credential is bound to. *)
Lemma CheckAuth_without_save decoratee w s :
  quiet decoratee ->
  truthy (dict_get (settings (self s)) "save_credentials") = false ->
  Forall (refresh_access (credentials (self s)))
    (trace (CheckAuth decoratee w s)).
Proof.
  intros Hq Hsave. unfold CheckAuth. rewrite bind_gets. cbv zeta.
  rewrite Hsave, bind_gets, andb_false_r. cbn [when].
  rewrite bind_ret, bind_gets.
  assert (Hflow : respects keeps_session reads_client_secrets
                    (when (bool_decide (flow (self s) = None)) GetFlow)).
  { apply respects_when; [exact keeps_session_refl | exact session_GetFlow]. }
  destruct (Hflow w s) as [(Hc & _) Hev].
  apply Forall_trace_bind.
  { eapply Forall_impl; [exact Hev|]. intros e [file ->]. exact I. }
  intros [] _. rewrite bind_gets, Hc.
  destruct (credentials (self s)) as [c|] eqn:Hcred.
  2:{ apply quiet_refresh_access. quiet_tac. }
  rewrite !bind_assoc. unfold bind at 1. rewrite access_token_expired_run.
  rewrite extend_nil.
  destruct (expired_at w _); [|apply quiet_refresh_access; quiet_tac].
  destruct (bool_decide (refresh_token c = None)); cbn [negb].
  { apply quiet_refresh_access. quiet_tac. }
  rewrite !bind_assoc. apply Forall_trace_bind.
  { rewrite <- Hc. apply Refresh_access. }
  intros [] _. apply quiet_refresh_access. quiet_tac.
Qed.

Lemma CheckServiceAuth_without_save decoratee w s :
  quiet decoratee ->
  truthy (dict_get (settings (self s)) "save_credentials") = false ->
  Forall (refresh_access (credentials (self s)))
    (trace (CheckServiceAuth decoratee w s)).
Proof.
  intros Hq Hsave. unfold CheckServiceAuth. rewrite bind_modify, bind_gets.
  cbv zeta. cbn [on_self self settings with_auth_method]. rewrite Hsave.
  rewrite bind_gets, andb_false_r. cbn [when]. rewrite bind_ret, bind_gets.
  cbn [credentials with_auth_method on_self self].
  destruct (credentials (self s)) as [c|] eqn:Hcred.
  2:{ rewrite bool_decide_eq_true_2 by reflexivity.
      apply quiet_refresh_access. quiet_tac. }
  rewrite bool_decide_eq_false_2 by discriminate.
  rewrite !bind_assoc. unfold bind at 1. rewrite access_token_expired_run.
  rewrite extend_nil.
  destruct (expired_at w _); [|apply quiet_refresh_access; quiet_tac].
  rewrite !bind_assoc. apply Forall_trace_bind.
  { match goal with |- Forall _ (trace (Refresh w ?s')) =>
      pose proof (Refresh_access w s') as HR end.
    cbn [credentials with_auth_method on_self self] in HR.
    rewrite Hcred in HR. exact HR. }
  intros [] _. apply quiet_refresh_access. quiet_tac.
Qed.

(** C5 (amended).  When the [save_credentials] setting is false (or
    absent, or otherwise falsy), none of the four authorization variants
    loads or saves credentials: the module calls [get] and [put] on no
    storage backend.  A backend is read or written all the same when the
    credential held at entry is bound to a store and has to be refreshed:
    the only accesses of a run are those the OAuth library's refresh makes
    to that store.  Hence, when no credential bound to a store is held at
    entry, no backend is read or written. *)
Theorem storage_access_without_save_credentials (w : world) (s : state) :
  truthy (dict_get (settings (self s)) "save_credentials") = false ->
  let by_refresh := refresh_access (credentials (self s)) in
  ((forall host_name port_numbers launch_browser bind_addr,
      Forall by_refresh
        (trace (LocalWebserverAuth host_name port_numbers launch_browser
                                   bind_addr w s))) /\
   Forall by_refresh (trace (CommandLineAuth w s)) /\
   Forall by_refresh (trace (DeviceAuth w s)) /\
   Forall by_refresh (trace (ServiceAuth w s))) /\
  (unbound s ->
   (forall host_name port_numbers launch_browser bind_addr,
      Forall not_storage
        (trace (LocalWebserverAuth host_name port_numbers launch_browser
                                   bind_addr w s))) /\
   Forall not_storage (trace (CommandLineAuth w s)) /\
   Forall not_storage (trace (DeviceAuth w s)) /\
   Forall not_storage (trace (ServiceAuth w s))).
Proof.
  intros Hsave. cbv zeta.
  assert (H : (forall host_name port_numbers launch_browser bind_addr,
      Forall (refresh_access (credentials (self s)))
        (trace (LocalWebserverAuth host_name port_numbers launch_browser
                                   bind_addr w s))) /\
   Forall (refresh_access (credentials (self s)))
     (trace (CommandLineAuth w s)) /\
   Forall (refresh_access (credentials (self s))) (trace (DeviceAuth w s)) /\
   Forall (refresh_access (credentials (self s))) (trace (ServiceAuth w s))).
  { repeat split.
    - intros. apply CheckAuth_without_save;
        [apply quiet_LocalWebserverAuth_body | exact Hsave].
    - apply CheckAuth_without_save;
        [apply quiet_CommandLineAuth_body | exact Hsave].
    - apply CheckAuth_without_save;
        [apply quiet_DeviceAuth_body | exact Hsave].
    - apply CheckServiceAuth_without_save;
        [apply quiet_ServiceAuth_body | exact Hsave]. }
  split; [exact H|]. intros Hun.
  assert (Himp : forall tr,
            Forall (refresh_access (credentials (self s))) tr ->
            Forall not_storage tr).
  { intros tr Htr. eapply Forall_impl; [exact Htr|]. intros e.
    apply refresh_access_unbound. exact Hun. }
  destruct H as (H1 & H2 & H3 & H4).
  repeat split; intros; apply Himp; auto.
Qed.

Lemma storage_access_without_save_credentials_witness :
  let s := holding (cred (Some "1//rt") 999) unsaved_file_settings in
  truthy (dict_get (settings (self s)) "save_credentials") = false /\
  unbound s /\
  _default_storage (self s) = Some (FileStorage (VStr "credentials.json")) /\
  Forall not_storage
    (trace (LocalWebserverAuth "localhost" None true VNone world0 s)) /\
  Forall not_storage (trace (ServiceAuth world0 s)).
Proof.
  cbv zeta.
  assert (H : truthy (dict_get
                (settings (self (holding (cred (Some "1//rt") 999)
                                         unsaved_file_settings)))
                "save_credentials") = false) by reflexivity.
  assert (Hun : unbound (holding (cred (Some "1//rt") 999)
                           unsaved_file_settings)).
  { intros c [= <-]. reflexivity. }
  split; [exact H|]. split; [exact Hun|]. split; [reflexivity|].
  destruct (proj2 (storage_access_without_save_credentials world0 _ H) Hun)
    as (Hweb & _ & _ & Hservice).
  split; [apply Hweb | exact Hservice].
Defined.

(** C5, as stated, fails for settings that name a backend and switch
    persistence off.  The first authorization on a fresh instance binds the
    credential it obtains to the file store; when that credential has
    expired, the next authorization refreshes it, and the refresh reads the
    store and writes the refreshed credential to it. *)
Lemma storage_without_save_credentials_counterexample :
  let st := FileStorage (VStr "credentials.json") in
  let s0 := fresh unsaved_file_settings in
  let first_call := LocalWebserverAuth "localhost" None true VNone world0 s0 in
  let s1 := final first_call in
  let later := at_time 6000 world0 in
  let second_call := LocalWebserverAuth "localhost" None true VNone later s1 in
  truthy (dict_get (settings (self s1)) "save_credentials") = false /\
  Forall not_storage (trace first_call) /\
  option_map store (credentials (self s1)) = Some (Some st) /\
  result second_call = inr tt /\
  trace second_call
  = [StorageLockedGet st; TokenRefresh;
     StorageLockedPut st
       (Some (set_store (Some st) (cred (Some "1//rt") 9000)))] /\
  ~ Forall not_storage (trace second_call).
Proof.
  cbv zeta.
  assert (H2 : trace (LocalWebserverAuth "localhost" None true VNone
                        (at_time 6000 world0)
                        (final (LocalWebserverAuth "localhost" None true
                                  VNone world0
                                  (fresh unsaved_file_settings))))
               = [StorageLockedGet (FileStorage (VStr "credentials.json"));
                  TokenRefresh;
                  StorageLockedPut (FileStorage (VStr "credentials.json"))
                    (Some (set_store
                             (Some (FileStorage (VStr "credentials.json")))
                             (cred (Some "1//rt") 9000)))])
    by (vm_compute; reflexivity).
  split; [vm_compute; reflexivity|].
  split; [vm_compute; repeat constructor|].
  split; [vm_compute; reflexivity|].
  split; [vm_compute; reflexivity|].
  split; [exact H2|].
  rewrite H2. intros Hall. inversion Hall as [|? ? Hk ?]; subst.
  discriminate Hk.
Qed.

(** With persistence on, the same call does read and write the store. *)
Example LocalWebserverAuth_with_save_credentials :
  let st := FileStorage (VStr "credentials.json") in
  let o := LocalWebserverAuth "localhost" None true VNone world0
             (fresh file_settings) in
  In (StorageGet st) (trace o) /\
  In (StoragePut st (Some (set_store (Some st) (cred (Some "1//rt") 5000))))
     (trace o).
Proof. vm_compute. split; tauto. Qed.

(** With persistence off and no backend named, the credential is bound to
    no store, and its refresh touches none. *)
Example LocalWebserverAuth_refresh_unbound :
  let s0 := fresh DEFAULT_SETTINGS in
  let s1 := final (LocalWebserverAuth "localhost" None true VNone world0
                     s0) in
  let o := LocalWebserverAuth "localhost" None true VNone
             (at_time 6000 world0) s1 in
  result o = inr tt /\ trace o = [TokenRefresh] /\
  option_map store (credentials (self (final o))) = Some None.
Proof. vm_compute. repeat split. Qed.
